(** * Viberate platform: claim guards, validation and approval flows

    A shallow embedding of the TypeScript/JavaScript sources of the Viberate
    web dashboard ([frontend/src/App.tsx], [utils/validation.ts]) and of the
    VS Code extension ([TaskPanelProvider], [AuthManager], [StorageManager],
    the webview script), with the properties proved about them.

    Conventions
    - a JavaScript string is the list of its UTF-16 code units ([jsstring]);
      string literals of the source are written [js "..."];
    - a JavaScript number is an IEEE-754 binary64 value (Rocq's primitive
      [float]); the builtins the sources call on numbers ([parseFloat],
      [Number.prototype.toString], [toFixed], [isNaN]) are defined after
      ECMA-262 so that the embedded functions compute;
    - [null]/[undefined] results are [None];
    - a promise that resolves or rejects is an [Outcome];
    - effects (messages posted, alerts, API requests, storage writes) are
      threaded explicitly through state records and event logs. *)

From Stdlib Require Import ZArith List String Ascii Floats Lia Bool.
From stdpp Require Import base option list gmap strings.
Import ListNotations.
Local Open Scope Z_scope.

(* ===================================================================== *)
(** ** JavaScript values and builtins *)
(* ===================================================================== *)

Module JS.

Definition code_unit := N.
Definition jsstring := list code_unit.

(** A source literal as a JavaScript string (one code unit per character). *)
Fixpoint js (s : string) : jsstring :=
  match s with
  | EmptyString => []
  | String a r => N_of_ascii a :: js r
  end.

(** Truthiness of a string: only the empty string is falsy. *)
Definition truthy (s : jsstring) : bool :=
  match s with [] => false | _ :: _ => true end.

(** [x || fallback] for a string [x] that may be missing. *)
Definition or_else (x : option jsstring) (fallback : jsstring) : jsstring :=
  match x with
  | Some m => if truthy m then m else fallback
  | None => fallback
  end.

Definition jsstring_eqb (a b : jsstring) : bool := bool_decide (a = b).

Fixpoint starts_with (p s : jsstring) : bool :=
  match p, s with
  | [], _ => true
  | a :: p', b :: s' => N.eqb a b && starts_with p' s'
  | _ :: _, [] => false
  end.

(** [s.includes(p)]: [p] occurs in [s] as a contiguous run. *)
Fixpoint includes (p s : jsstring) : bool :=
  starts_with p s ||
  match s with
  | [] => false
  | _ :: r => includes p r
  end.

(** WhiteSpace and LineTerminator code points of ECMA-262, the characters
    [String.prototype.trim] and [parseFloat] strip. *)
Definition isWhiteSpaceOrLineTerminator (c : code_unit) : bool :=
  existsb (N.eqb c)
    [9; 10; 11; 12; 13; 32; 160; 5760; 8232; 8233; 8239; 8287; 12288; 65279]%N
  || ((8192 <=? c) && (c <=? 8202))%N.

Fixpoint trimStart (s : jsstring) : jsstring :=
  match s with
  | c :: r => if isWhiteSpaceOrLineTerminator c then trimStart r else s
  | [] => []
  end.

Definition trimEnd (s : jsstring) : jsstring := rev (trimStart (rev s)).

Definition trim (s : jsstring) : jsstring := trimEnd (trimStart s).

(** [s.split(sep)] for a one-character separator. *)
Fixpoint split_aux (sep : code_unit) (s cur : jsstring) : list jsstring :=
  match s with
  | [] => [rev cur]
  | c :: r =>
      if N.eqb c sep then rev cur :: split_aux sep r []
      else split_aux sep r (c :: cur)
  end.

Definition split (sep : code_unit) (s : jsstring) : list jsstring :=
  split_aux sep s [].

(** *** Decimal digits *)

Definition is_digit (c : code_unit) : bool := ((48 <=? c) && (c <=? 57))%N.
Definition digit_val (c : code_unit) : Z := Z.of_N c - 48.
Definition digit_char (d : Z) : code_unit := (48 + Z.to_N d)%N.

Fixpoint digits_aux (fuel : nat) (z : Z) (acc : jsstring) : jsstring :=
  match fuel with
  | O => acc
  | S f =>
      if z <? 10 then digit_char z :: acc
      else digits_aux f (z / 10) (digit_char (z mod 10) :: acc)
  end.

(** The decimal numeral of a non-negative integer, as [String(n)] prints it. *)
Definition decimal_digits (z : Z) : jsstring :=
  digits_aux (S (Z.to_nat (Z.log2 z))) z [].

Definition digits_value (ds : jsstring) : Z :=
  fold_left (fun acc c => 10 * acc + digit_val c) ds 0.

Fixpoint span_digits (s : jsstring) : jsstring * jsstring :=
  match s with
  | c :: r =>
      if is_digit c then let '(d, t) := span_digits r in (c :: d, t)
      else ([], s)
  | [] => ([], [])
  end.

Definition zeros (n : Z) : jsstring := repeat (digit_char 0) (Z.to_nat n).

(** *** Numbers *)

Definition Number := float.

Definition isNaN (x : Number) : bool := PrimFloat.is_nan x.

(** The binary64 value nearest to the rational [p/q] ([0 <= p], [0 < q]),
    ties to even; overflow gives [Infinity]. *)
Definition round_to_double (p q : Z) : Number :=
  if p =? 0 then PrimFloat.zero
  else
    let e0 := Z.log2 p - Z.log2 q - 52 in
    let scaled e := if 0 <=? e then p / (q * 2 ^ e) else (p * 2 ^ (- e)) / q in
    let e1 := if scaled e0 <? 2 ^ 52 then e0 - 1
              else if 2 ^ 53 <=? scaled e0 then e0 + 1 else e0 in
    let e := Z.max e1 (-1074) in
    let num := if 0 <=? e then p else p * 2 ^ (- e) in
    let den := if 0 <=? e then q * 2 ^ e else q in
    let m0 := num / den in
    let r := num mod den in
    let m := if (den <? 2 * r) || ((2 * r =? den) && Z.odd m0)
             then m0 + 1 else m0 in
    if (971 <? e) || ((e =? 971) && (2 ^ 53 <=? m)) then PrimFloat.infinity
    else Z.ldexp (PrimFloat.of_uint63 (Uint63.of_Z m)) e.

(** ExponentPart of a StrDecimalLiteral: [e] or [E], an optional sign and
    digits; anything else is no exponent. *)
Definition parse_exponent (s : jsstring) : Z :=
  match s with
  | c :: r =>
      if (N.eqb c 101 || N.eqb c 69)%N then
        match r with
        | sg :: r' =>
            if N.eqb sg 43 then
              let '(d, _) := span_digits r' in digits_value d
            else if N.eqb sg 45 then
              let '(d, _) := span_digits r' in - digits_value d
            else let '(d, _) := span_digits r in digits_value d
        | [] => 0
        end
      else 0
  | [] => 0
  end.

(** The longest prefix that is a StrUnsignedDecimalLiteral, as a number. *)
Definition parse_unsigned (s : jsstring) : option Number :=
  if starts_with (js "Infinity") s then Some PrimFloat.infinity
  else
    let '(ip, t) := span_digits s in
    let '(fp, t') :=
      match t with
      | c :: r => if N.eqb c 46 then span_digits r else ([], t)
      | [] => ([], [])
      end in
    match ip, fp with
    | [], [] => None
    | _, _ =>
        let ex := parse_exponent t' - Z.of_nat (length fp) in
        let mant := digits_value (ip ++ fp) in
        Some (if 0 <=? ex then round_to_double (mant * 10 ^ ex) 1
              else round_to_double mant (10 ^ (- ex)))
    end.

(** [parseFloat(string)] (ECMA-262, 19.2.4). *)
Definition parseFloat (str : jsstring) : Number :=
  match trimStart str with
  | c :: r =>
      if N.eqb c 45 then
        match parse_unsigned r with
        | Some v => PrimFloat.opp v
        | None => PrimFloat.nan
        end
      else if N.eqb c 43 then
        match parse_unsigned r with
        | Some v => v
        | None => PrimFloat.nan
        end
      else
        match parse_unsigned (c :: r) with
        | Some v => v
        | None => PrimFloat.nan
        end
  | [] => PrimFloat.nan
  end.

(** *** Number::toString (radix 10)

    For a finite positive [x = m * 2^e] the digits are those of the shortest
    decimal [s * 10^(n-k)] that reads back as [x]; among several the closest
    to [x].  The interval of reals that round to [x] is kept as three
    numerators over a common denominator. *)

Record interval := {
  iv_lo : Z; iv_x : Z; iv_hi : Z; iv_den : Z; iv_closed : bool
}.

Definition rounding_interval (m : positive) (e : Z) : interval :=
  let lo := if (Zpos m =? 2 ^ 52) && (-1074 <? e)
            then 4 * Zpos m - 1 else 4 * Zpos m - 2 in
  let e2 := e - 2 in
  let sc := if 0 <=? e2 then 2 ^ e2 else 1 in
  {| iv_lo := lo * sc;
     iv_x := 4 * Zpos m * sc;
     iv_hi := (4 * Zpos m + 2) * sc;
     iv_den := if 0 <=? e2 then 1 else 2 ^ (- e2);
     iv_closed := Z.even (Zpos m) |}.

(** The least [n >= n0] with [x < 10^n], for [x = xn / d]. *)
Fixpoint find_n (fuel : nat) (n : Z) (xn d : Z) : Z :=
  match fuel with
  | O => n
  | S f =>
      if (if 0 <=? n then xn <? d * 10 ^ n else xn * 10 ^ (- n) <? d)
      then n else find_n f (n + 1) xn d
  end.

Definition in_interval (iv : interval) (up q s : Z) : bool :=
  if iv_closed iv
  then (iv_lo iv * up <=? s * q) && (s * q <=? iv_hi iv * up)
  else (iv_lo iv * up <? s * q) && (s * q <? iv_hi iv * up).

(** The [k]-digit decimal at exponent [n0] that reads back as [x], if any. *)
Definition candidate (iv : interval) (n0 k : Z) : option Z :=
  let up := if 0 <=? n0 - k then 1 else 10 ^ (k - n0) in
  let q := if 0 <=? n0 - k then iv_den iv * 10 ^ (n0 - k) else iv_den iv in
  let p := iv_x iv * up in
  let s_lo := p / q in
  let s_hi := s_lo + 1 in
  match in_interval iv up q s_lo, in_interval iv up q s_hi with
  | true, true =>
      let dl := p - s_lo * q in
      let dh := s_hi * q - p in
      Some (if dl <? dh then s_lo
            else if dh <? dl then s_hi
            else if Z.even s_lo then s_lo else s_hi)
  | true, false => Some s_lo
  | false, true => Some s_hi
  | false, false => None
  end.

Fixpoint shortest (fuel : nat) (iv : interval) (n0 k : Z) : Z * Z :=
  match fuel with
  | O => (0, k)
  | S f =>
      match candidate iv n0 k with
      | Some s => (s, k)
      | None => shortest f iv n0 (k + 1)
      end
  end.

(** The digit string [s] and the exponent [n] of step 5 of Number::toString. *)
Definition decimal_of (m : positive) (e : Z) : jsstring * Z :=
  let iv := rounding_interval m e in
  let est := ((Z.log2 (iv_x iv) - Z.log2 (iv_den iv) - 1) * 30103) / 100000 - 1 in
  let n0 := find_n 8 est (iv_x iv) (iv_den iv) in
  let '(s, k) := shortest 17 iv n0 1 in
  if s =? 10 ^ k then ([digit_char 1], n0 + 1) else (decimal_digits s, n0).

Definition exponent_part (n : Z) : jsstring :=
  js "e" ++ (if 0 <=? n - 1 then js "+" else js "-")
         ++ decimal_digits (Z.abs (n - 1)).

(** Steps 6 to 10 of Number::toString. *)
Definition format_decimal (ds : jsstring) (n : Z) : jsstring :=
  let k := Z.of_nat (length ds) in
  if (k <=? n) && (n <=? 21) then ds ++ zeros (n - k)
  else if (0 <? n) && (n <=? 21) then
    take (Z.to_nat n) ds ++ js "." ++ drop (Z.to_nat n) ds
  else if (-6 <? n) && (n <=? 0) then js "0." ++ zeros (- n) ++ ds
  else if k =? 1 then ds ++ exponent_part n
  else take 1 ds ++ js "." ++ drop 1 ds ++ exponent_part n.

Definition toString (x : Number) : jsstring :=
  match Prim2SF x with
  | S754_nan => js "NaN"
  | S754_zero _ => js "0"
  | S754_infinity s => if s then js "-Infinity" else js "Infinity"
  | S754_finite s m e =>
      let '(ds, n) := decimal_of m e in
      (if s then js "-" else []) ++ format_decimal ds n
  end.

(** The number of digits after the decimal point in the decimal expansion
    of [x] (the shortest one that reads back as [x]). *)
Definition decimal_places (x : Number) : Z :=
  match Prim2SF x with
  | S754_finite _ m e =>
      let '(ds, n) := decimal_of m e in Z.max 0 (Z.of_nat (length ds) - n)
  | _ => 0
  end.

(** [Number.prototype.toFixed(f)] (ECMA-262, 21.1.3.3), [0 <= f]. *)
Definition toFixed (f : Z) (x : Number) : jsstring :=
  match Prim2SF x with
  | S754_nan => js "NaN"
  | S754_infinity _ => toString x
  | S754_zero _ => js "0" ++ (if f =? 0 then [] else js "." ++ zeros f)
  | S754_finite s m e =>
      let num := if 0 <=? e then Zpos m * 2 ^ e else Zpos m in
      let den := if 0 <=? e then 1 else 2 ^ (- e) in
      if 10 ^ 21 * den <=? num then toString x
      else
        let n := (2 * num * 10 ^ f + den) / (2 * den) in
        let m0 := decimal_digits n in
        let k := Z.of_nat (length m0) in
        let m1 := if k <=? f then zeros (f + 1 - k) ++ m0 else m0 in
        let k1 := Z.of_nat (length m1) in
        (if s then js "-" else []) ++
        (if f =? 0 then m1
         else take (Z.to_nat (k1 - f)) m1 ++ js "." ++ drop (Z.to_nat (k1 - f)) m1)
  end.

(** A settled promise. *)
Inductive Outcome (A E : Type) : Type :=
| Resolved (a : A)
| Rejected (e : E).
Arguments Resolved {A E} a.
Arguments Rejected {A E} e.

End JS.
Import JS.

(* ===================================================================== *)
(** ** Input validation utilities (extension and frontend) *)
(* ===================================================================== *)

(** Character classes of the regular expressions in both validation files. *)
Definition is_lower_hex (c : code_unit) : bool := ((97 <=? c) && (c <=? 102))%N.
Definition is_upper_hex (c : code_unit) : bool := ((65 <=? c) && (c <=? 70))%N.
Definition is_hex (c : code_unit) : bool :=
  is_lower_hex c || is_upper_hex c || is_digit c.

(** [/^0x[a-fA-F0-9]{40}$/.test(address)] *)
Definition address_regex (address : jsstring) : bool :=
  match address with
  | c0 :: c1 :: body =>
      N.eqb c0 48 && N.eqb c1 120 && Nat.eqb (length body) 40 && forallb is_hex body
  | _ => false
  end.

(** The extension's [utils/validation.ts]. *)
Module ExtensionValidation.

Definition validateWalletAddress (address : jsstring) : option jsstring :=
  if negb (truthy address) then Some (js "Wallet address is required")
  else if negb (starts_with (js "0x") address) then
    Some (js "Wallet address must start with 0x")
  else if negb (Nat.eqb (length address) 42) then
    Some (js "Wallet address must be 42 characters (0x followed by 40 hex characters)")
  else if negb (address_regex address) then
    Some (js "Wallet address contains invalid characters. Only 0-9 and a-f are allowed")
  else
    let hasUpperCase := existsb is_upper_hex (drop 2 address) in
    let hasLowerCase := existsb is_lower_hex (drop 2 address) in
    if hasUpperCase && hasLowerCase then
      (* mixed case: the source leaves this branch empty (checksum is a TODO) *)
      None
    else None.

End ExtensionValidation.

(** The web frontend's [utils/validation.ts]. *)
Module Validation.

Definition validateWalletAddress (address : jsstring) : option jsstring :=
  if negb (truthy address) then Some (js "Wallet address is required")
  else if negb (address_regex address) then
    Some (js "Invalid wallet address format. Must be 0x followed by 40 hexadecimal characters")
  else None.

(** The argument of [validatePaymentAmount] is [string | number]. *)
Inductive amount_arg :=
| AmountString (s : jsstring)
| AmountNumber (x : Number).

(** [numAmount.toString().split('.')[1]?.length || 0] *)
Definition fraction_length (numAmount : Number) : Z :=
  match split 46%N (toString numAmount) !! 1%nat with
  | Some part => Z.of_nat (length part)
  | None => 0
  end.

Definition validatePaymentAmount (amount : amount_arg) : option jsstring :=
  let numAmount :=
    match amount with
    | AmountString s => parseFloat s
    | AmountNumber x => x
    end in
  if isNaN numAmount then Some (js "Payment amount must be a valid number")
  else if PrimFloat.ltb numAmount 0%float then
    Some (js "Payment amount cannot be negative")
  else if PrimFloat.eqb numAmount 0%float then
    Some (js "Payment amount must be greater than zero")
  else if PrimFloat.ltb 10000%float numAmount then
    Some (js "Payment amount cannot exceed $10,000 USDC")
  else if 2 <? fraction_length numAmount then
    Some (js "Payment amount can have at most 2 decimal places")
  else None.

End Validation.

(* ===================================================================== *)
(** ** The researcher dashboard ([frontend/src/App.tsx]) *)
(* ===================================================================== *)

Module App.

(** What the handlers read of a task, an assignment and a project.
    [None] stands for a missing ([undefined] or [null]) field. *)
Record TaskRef := { project : option Z }.

Record Assignment := {
  assignment_id : Z;
  task_data : option TaskRef;
  task : option TaskRef
}.

Record LabelStudioProject := {
  project_id : Z;
  price_per_task : option jsstring
}.

(** The rejection of an axios request: [err.response?.data?.error]. *)
Record AxiosError := { response_data_error : option jsstring }.

(** The body of a successful approve response; the README documents a
    [payment.status] field in it. *)
Record ApproveResponse := { payment_status : option jsstring }.

Record State := {
  pendingAssignments : list Assignment;
  selectedAssignments : list Z;   (* a [Set<number>], in insertion order *)
  projects : list LabelStudioProject;
  loading : bool;
  error : jsstring
}.

Definition initial : State :=
  {| pendingAssignments := []; selectedAssignments := []; projects := [];
     loading := false; error := [] |}.

(** What a handler does to the outside, in order. *)
Inductive Effect :=
| Alert (message : jsstring)
| Confirm (message : jsstring)
| ApproveRequest (assignmentId : Z) (payment_amount : Number)
| RejectRequest (assignmentId : Z) (reason : jsstring)
| ListRequest (status : jsstring)
| ConsoleError (assignmentId : Z) (err : AxiosError).

(** What the outside answers. *)
Record Env := {
  window_confirm : jsstring -> bool;
  approve : Z -> Number -> Outcome ApproveResponse AxiosError;
  reject : Z -> jsstring -> Outcome unit AxiosError;
  list_assignments : jsstring -> Outcome (list Assignment) AxiosError
}.

(** [Set] operations on the selection. *)
Definition set_has (x : Z) (s : list Z) : bool := existsb (Z.eqb x) s.
Definition set_add (x : Z) (s : list Z) : list Z :=
  if set_has x s then s else s ++ [x].
Definition set_delete (x : Z) (s : list Z) : list Z :=
  filter (fun y => negb (Z.eqb x y)) s.
Definition set_of_list (l : list Z) : list Z :=
  fold_left (fun s x => set_add x s) l [].

Definition setError (e : jsstring) (st : State) : State :=
  {| pendingAssignments := pendingAssignments st;
     selectedAssignments := selectedAssignments st;
     projects := projects st; loading := loading st; error := e |}.

Definition setLoading (b : bool) (st : State) : State :=
  {| pendingAssignments := pendingAssignments st;
     selectedAssignments := selectedAssignments st;
     projects := projects st; loading := b; error := error st |}.

Definition setSelectedAssignments (s : list Z) (st : State) : State :=
  {| pendingAssignments := pendingAssignments st;
     selectedAssignments := s;
     projects := projects st; loading := loading st; error := error st |}.

Definition setPendingAssignments (l : list Assignment) (st : State) : State :=
  {| pendingAssignments := l;
     selectedAssignments := selectedAssignments st;
     projects := projects st; loading := loading st; error := error st |}.

Definition setProjects (l : list LabelStudioProject) (st : State) : State :=
  {| pendingAssignments := pendingAssignments st;
     selectedAssignments := selectedAssignments st;
     projects := l; loading := loading st; error := error st |}.

Definition loadPendingAssignments (env : Env) (st : State) : State * list Effect :=
  match list_assignments env (js "submitted") with
  | Resolved assignments =>
      (setSelectedAssignments [] (setPendingAssignments assignments st),
       [ListRequest (js "submitted")])
  | Rejected _ =>
      (setPendingAssignments [] st, [ListRequest (js "submitted")])
  end.

Definition toggleAssignmentSelection (assignmentId : Z) (st : State) : State :=
  let newSelected :=
    if set_has assignmentId (selectedAssignments st)
    then set_delete assignmentId (selectedAssignments st)
    else set_add assignmentId (selectedAssignments st) in
  setSelectedAssignments newSelected st.

Definition toggleSelectAll (st : State) : State :=
  if Nat.eqb (length (selectedAssignments st)) (length (pendingAssignments st))
  then setSelectedAssignments [] st
  else setSelectedAssignments
         (set_of_list (map assignment_id (pendingAssignments st))) st.

(** [pendingAssignments.find(a => a.id === assignmentId)] *)
Definition find_assignment (st : State) (assignmentId : Z) : option Assignment :=
  List.find (fun a => Z.eqb (assignment_id a) assignmentId) (pendingAssignments st).

(** [assignment.task_data || assignment.task] *)
Definition task_of (a : Assignment) : option TaskRef :=
  match task_data a with
  | Some t => Some t
  | None => task a
  end.

(** [projects.find(p => p.id === task?.project)] *)
Definition find_project (st : State) (t : option TaskRef) : option LabelStudioProject :=
  match t with
  | Some {| project := Some pid |} =>
      List.find (fun p => Z.eqb (project_id p) pid) (projects st)
  | _ => None
  end.

(** [project?.price_per_task ? parseFloat(project.price_per_task) : 5.00] *)
Definition price_of (p : option LabelStudioProject) : Number :=
  match p with
  | Some {| price_per_task := Some s |} =>
      if truthy s then parseFloat s else 5%float
  | _ => 5%float
  end.

(** The first loop of [handleBatchApprove]. *)
Definition totalPayment (st : State) : Number :=
  fold_left
    (fun total assignmentId =>
       match find_assignment st assignmentId with
       | Some assignment =>
           let defaultPrice := price_of (find_project st (task_of assignment)) in
           PrimFloat.add total defaultPrice
       | None => total
       end)
    (selectedAssignments st) 0%float.

(** The amount computed in the body of the second loop. *)
Definition paymentAmount (st : State) (assignmentId : Z) : Number :=
  let task :=
    match find_assignment st assignmentId with
    | Some assignment => task_of assignment
    | None => None
    end in
  price_of (find_project st task).

(** The second loop: one approve request per selected id, counted by how
    the request settles. *)
Fixpoint approve_loop (env : Env) (st : State) (ids : list Z)
         (successCount errorCount : Z) : Z * Z * list Effect :=
  match ids with
  | [] => (successCount, errorCount, [])
  | assignmentId :: rest =>
      let amount := paymentAmount st assignmentId in
      match approve env assignmentId amount with
      | Resolved _ =>
          let '(s, e, effs) := approve_loop env st rest (successCount + 1) errorCount in
          (s, e, ApproveRequest assignmentId amount :: effs)
      | Rejected err =>
          let '(s, e, effs) := approve_loop env st rest successCount (errorCount + 1) in
          (s, e, ApproveRequest assignmentId amount
                   :: ConsoleError assignmentId err :: effs)
      end
  end.

Definition confirm_message (st : State) : jsstring :=
  js "Approve " ++ decimal_digits (Z.of_nat (length (selectedAssignments st)))
    ++ js " assignment(s) for a total of $" ++ toFixed 2 (totalPayment st)
    ++ js " USDC?".

Definition result_message (successCount errorCount : Z) : jsstring :=
  if errorCount =? 0 then
    js "Successfully approved " ++ decimal_digits successCount ++ js " assignment(s)!"
  else
    js "Approved " ++ decimal_digits successCount ++ js " assignment(s). Failed: "
      ++ decimal_digits errorCount.

Definition handleBatchApprove (env : Env) (st : State) : State * list Effect :=
  if Nat.eqb (length (selectedAssignments st)) 0 then
    (st, [Alert (js "Please select at least one assignment to approve.")])
  else
    let question := confirm_message st in
    if negb (window_confirm env question) then (st, [Confirm question])
    else
      let st1 := setLoading true st in
      let '(successCount, errorCount, requests) :=
        approve_loop env st1 (selectedAssignments st1) 0 0 in
      let st2 := setLoading false st1 in
      let '(st3, reload) := loadPendingAssignments env st2 in
      (st3, Confirm question :: requests ++ reload
              ++ [Alert (result_message successCount errorCount)]).

Definition handleApproveAssignment (env : Env) (assignmentId : Z)
           (paymentAmount : Number) (st : State) : State * list Effect :=
  let paymentError :=
    Validation.validatePaymentAmount (Validation.AmountNumber paymentAmount) in
  if from_option truthy false paymentError then
    (setError (default [] paymentError) st, [])
  else
    let st1 := setLoading true st in
    match approve env assignmentId paymentAmount with
    | Resolved _ =>
        let '(st2, reload) := loadPendingAssignments env st1 in
        (setLoading false (setError [] st2),
         ApproveRequest assignmentId paymentAmount :: reload)
    | Rejected err =>
        (setLoading false
           (setError (or_else (response_data_error err)
                              (js "Failed to approve assignment")) st1),
         [ApproveRequest assignmentId paymentAmount])
    end.

(** [assignmentsAPI.reject]: the request it posts, whose body carries
    [reason || 'Does not meet quality standards'], and how it settles. *)
Definition assignmentsAPI_reject (env : Env) (assignmentId : Z) (reason : jsstring)
  : Effect * Outcome unit AxiosError :=
  let body_reason :=
    if truthy reason then reason else js "Does not meet quality standards" in
  (RejectRequest assignmentId body_reason, reject env assignmentId body_reason).

Definition handleRejectAssignment (env : Env) (assignmentId : Z)
           (reason : jsstring) (st : State) : State * list Effect :=
  let st1 := setLoading true st in
  let request := fst (assignmentsAPI_reject env assignmentId reason) in
  match snd (assignmentsAPI_reject env assignmentId reason) with
  | Resolved _ =>
      let '(st2, reload) := loadPendingAssignments env st1 in
      (setLoading false (setError [] st2), request :: reload)
  | Rejected err =>
      (setLoading false
         (setError (or_else (response_data_error err)
                            (js "Failed to reject assignment")) st1),
       [request])
  end.

(** The approve requests among the effects of a handler. *)
Definition approve_requests (effs : list Effect) : list (Z * Number) :=
  omap (fun e => match e with
                 | ApproveRequest i a => Some (i, a)
                 | _ => None
                 end) effs.

Definition alerts (effs : list Effect) : list jsstring :=
  omap (fun e => match e with Alert m => Some m | _ => None end) effs.

End App.

(** The dashboard as a transition system: what the researcher can do on
    the review panel, each handler run to completion.  A selection checkbox
    exists only on the card of a pending assignment, and the select-all box
    only while there are pending assignments. *)
Inductive ui_step : App.State -> App.State -> Prop :=
| step_toggle st a :
    In a (App.pendingAssignments st) ->
    ui_step st (App.toggleAssignmentSelection (App.assignment_id a) st)
| step_select_all st :
    App.pendingAssignments st <> [] ->
    ui_step st (App.toggleSelectAll st)
| step_refresh env st :
    ui_step st (fst (App.loadPendingAssignments env st))
| step_projects ps st :
    ui_step st (App.setProjects ps st)
| step_batch env st :
    ui_step st (fst (App.handleBatchApprove env st))
| step_approve env i amount st :
    ui_step st (fst (App.handleApproveAssignment env i amount st))
| step_reject env i reason st :
    ui_step st (fst (App.handleRejectAssignment env i reason st))
| step_banner b e st :
    (* the other handlers touch only the loading flag and the error banner *)
    ui_step st (App.setLoading b (App.setError e st)).

Definition ui_reachable (st : App.State) : Prop := rtc ui_step App.initial st.

(* ===================================================================== *)
(** ** The extension: storage and authentication *)
(* ===================================================================== *)

Module Auth.

Record User := {
  user_id : Z;
  username : jsstring;
  email : jsstring;
  user_type : jsstring;
  usdc_balance : jsstring;
  base_wallet_address : option jsstring
}.

(** What the extension keeps in [globalState]. *)
Inductive Value :=
| VString (s : jsstring)
| VUser (u : User)
| VNull.

(** [context.globalState]: a key holds a value or is absent ([undefined]). *)
Definition Storage := gmap string Value.

(** [StorageManager.set]: [globalState.update(key, value)]; updating with
    [undefined] removes the key. *)
Definition storage_set (key : string) (value : option Value) (st : Storage) : Storage :=
  match value with
  | Some v => <[key := v]> st
  | None => delete key st
  end.

Definition storage_get (key : string) (st : Storage) : option Value := st !! key.

Definition storage_remove (key : string) (st : Storage) : Storage := delete key st.

(** [StorageManager.has]: [value !== undefined && value !== null]. *)
Definition storage_has (key : string) (st : Storage) : bool :=
  match st !! key with
  | Some VNull => false
  | Some _ => true
  | None => false
  end.

(** [response.data] of a successful [POST /auth/login/]. *)
Record LoginData := { token : option jsstring; user : option User }.

(** The rejection of the request: [error.response?.data?.error] and
    [error.response?.data?.detail]. *)
Record RequestError := { data_error : option jsstring; data_detail : option jsstring }.

(** What [login] can throw. *)
Inductive Thrown :=
| Error (message : jsstring)
| TypeError
| Rethrown (e : RequestError).

(** The [catch] clause of [login]. *)
Definition login_catch (error : Thrown) : Thrown :=
  match error with
  | Rethrown e =>
      match data_error e with
      | Some m => if truthy m then Error m else
          match data_detail e with
          | Some d => if truthy d then Error d else error
          | None => error
          end
      | None =>
          match data_detail e with
          | Some d => if truthy d then Error d else error
          | None => error
          end
      end
  | _ => error
  end.

(** [AuthManager.login], given how the login request settles. *)
Definition login (request : Outcome LoginData RequestError) (st : Storage)
  : (Thrown + User) * Storage :=
  match request with
  | Rejected e => (inl (login_catch (Rethrown e)), st)
  | Resolved data =>
      match user data with
      | None => (inl (login_catch TypeError), st)
      | Some u =>
          if negb (jsstring_eqb (user_type u) (js "annotator")) then
            (inl (login_catch
                    (Error (js "Only annotators can use this extension. Please use the web interface for researchers."))),
             st)
          else
            let st1 := storage_set "authToken" (VString <$> token data) st in
            let st2 := storage_set "user" (Some (VUser u)) st1 in
            (inr u, st2)
      end
  end.

Definition logout (st : Storage) : Storage :=
  storage_remove "user" (storage_remove "authToken" st).

Definition getUser (st : Storage) : option Value := storage_get "user" st.

Definition isAuthenticated (st : Storage) : bool := storage_has "authToken" st.

End Auth.

(* ===================================================================== *)
(** ** The extension: [TaskPanelProvider] *)
(* ===================================================================== *)

Module TaskPanel.

(** What the handlers read of a rejected request: [error.response?.status]
    and [error.message]. *)
Record RequestError := { response_status : option Z; message : jsstring }.

(** What [taskManager.claimTask] resolves to: [null]/[undefined], or an
    assignment whose [id] may be missing. *)
Record TaskAssignment := { id : option Z }.

(** Notifications and calls, in order. *)
Inductive Effect :=
| ShowInformationMessage (text : jsstring)
| ShowErrorMessage (text : jsstring)
| ClaimTaskCall (taskId : Z)
| RefreshCall.

(** How the awaited calls settle: the claim, the refresh inside [try] and
    the refresh inside [catch]. *)
Record Env := {
  claimTask : Z -> Outcome (option TaskAssignment) RequestError;
  refresh_after_claim : Outcome unit RequestError;
  refresh_after_error : Outcome unit RequestError
}.

(** [!assignment || !assignment.id] *)
Definition not_created (assignment : option TaskAssignment) : bool :=
  match assignment with
  | Some {| id := Some i |} => Z.eqb i 0
  | _ => true
  end.

Definition claimed_message : jsstring :=
  [9989%N] ++ js " Task claimed! Look for the green " ++ [34%N]
    ++ js "My Assignments" ++ [34%N] ++ js " section above. You can cancel anytime.".

(** The [catch] clause of [handleClaimTask]. *)
Definition claim_error_message (error : RequestError) : jsstring :=
  match response_status error with
  | Some 400 => js "This task is no longer available. Please refresh and try another task."
  | Some 403 => js "You do not have permission to claim this task."
  | Some 404 => js "Task not found. It may have been claimed by another user."
  | _ => js "Failed to claim task: " ++ message error
  end.

Definition handle_claim_error (env : Env) (error : RequestError)
  : list Effect * Outcome unit RequestError :=
  ([ShowErrorMessage (claim_error_message error); RefreshCall],
   refresh_after_error env).

(** [handleClaimTask]: the effects, and how the handler itself settles. *)
Definition handleClaimTask (env : Env) (taskId : Z)
  : list Effect * Outcome unit RequestError :=
  match claimTask env taskId with
  | Rejected error =>
      let '(effs, r) := handle_claim_error env error in
      (ClaimTaskCall taskId :: effs, r)
  | Resolved assignment =>
      if not_created assignment then
        let '(effs, r) :=
          handle_claim_error env
            {| response_status := None;
               message := js "Assignment was not created properly" |} in
        (ClaimTaskCall taskId :: effs, r)
      else
        match refresh_after_claim env with
        | Rejected error =>
            let '(effs, r) := handle_claim_error env error in
            (ClaimTaskCall taskId :: RefreshCall :: effs, r)
        | Resolved _ =>
            ([ClaimTaskCall taskId; RefreshCall; ShowInformationMessage claimed_message],
             Resolved tt)
        end
  end.

Definition error_messages (effs : list Effect) : list jsstring :=
  omap (fun e => match e with ShowErrorMessage m => Some m | _ => None end) effs.

End TaskPanel.

(* ===================================================================== *)
(** ** The webview script: assignment cards *)
(* ===================================================================== *)

Module Card.

(** What the card reads of [assignment.task_data || assignment.task || {}]. *)
Record Task := { price_per_task : option jsstring }.

Record Assignment := {
  id : Z;
  status : jsstring;
  feedback : option jsstring;
  task : Task
}.

(** [escapeHtml] *)
Definition escapeHtml (unsafe : jsstring) : jsstring :=
  flat_map (fun c =>
    if N.eqb c 38 then js "&amp;"
    else if N.eqb c 60 then js "&lt;"
    else if N.eqb c 62 then js "&gt;"
    else if N.eqb c 34 then js "&quot;"
    else if N.eqb c 39 then js "&#039;"
    else [c]) unsafe.

(** The pieces a card is assembled from.  A piece that the source leaves
    as the empty string is [None]. *)
Inductive Html :=
| CancelButton (assignmentId : Z)
    (* <button data-action="cancel-assignment" data-assignment-id=...> *)
| AnnotationForm (assignmentId : Z) (form : jsstring)
    (* what renderAnnotationForm(assignment) returned *)
| RejectedNote (feedback : jsstring).
    (* <p ...>Rejected: feedback</p> *)

Inductive StatusIcon := CheckIcon | ClockIcon | Spacer.

(** The two templates of [renderAssignmentCard], with the pieces they
    interpolate. *)
Inductive CardHtml :=
| CollapsibleCard (assignmentId : Z) (status pricePerTask : jsstring)
                  (annotationForm cancelButton : option Html)
| CompactCard (statusIcon : StatusIcon) (status pricePerTask : jsstring)
              (actionButtonRow cancelButtonRow : option Html).

Section Render.

(** [renderAnnotationForm] builds the form from the task's label
    configuration (or an error note with its own cancel button when that
    fails); the card only embeds its result. *)
Variable renderAnnotationForm : Assignment -> jsstring.

Definition status_is (s : string) (status : jsstring) : bool :=
  jsstring_eqb status (js s).

Definition renderAssignmentCard (assignment : Assignment) : CardHtml :=
  let status := status assignment in
  let cancelButton :=
    if existsb (jsstring_eqb status) [js "assigned"; js "accepted"; js "in_progress"]
    then Some (CancelButton (id assignment)) else None in
  let isInProgress :=
    status_is "assigned" status || status_is "accepted" status
    || status_is "in_progress" status in
  let annotationForm :=
    if isInProgress
    then Some (AnnotationForm (id assignment) (renderAnnotationForm assignment))
    else None in
  let actionButton :=
    if isInProgress then None
    else if status_is "submitted" status then None
    else if status_is "approved" status then None
    else if status_is "rejected" status then
      Some (RejectedNote
              (escapeHtml (or_else (feedback assignment) (js "No feedback provided"))))
    else None in
  let pricePerTask :=
    match price_per_task (task assignment) with
    | Some p => if truthy p then toFixed 2 (parseFloat p) else js "0.00"
    | None => js "0.00"
    end in
  if isInProgress then
    CollapsibleCard (id assignment) (escapeHtml status) pricePerTask
                    annotationForm cancelButton
  else
    let statusIcon :=
      if status_is "approved" status then CheckIcon
      else if status_is "submitted" status then ClockIcon
      else Spacer in
    CompactCard statusIcon (escapeHtml status) pricePerTask actionButton cancelButton.

End Render.

(** Where the two templates interpolate [cancelButton] and
    [annotationForm]; the compact template has no place for the form. *)
Definition cancel_slot (card : CardHtml) : option Html :=
  match card with
  | CollapsibleCard _ _ _ _ cancelButton => cancelButton
  | CompactCard _ _ _ _ cancelButtonRow => cancelButtonRow
  end.

Definition form_slot (card : CardHtml) : option Html :=
  match card with
  | CollapsibleCard _ _ _ annotationForm _ => annotationForm
  | CompactCard _ _ _ _ _ => None
  end.

(** The card offers the cancel control of the assignment [assignmentId]. *)
Definition offers_cancel (assignmentId : Z) (card : CardHtml) : Prop :=
  cancel_slot card = Some (CancelButton assignmentId).

(** The card embeds [form] as the annotation form of the assignment
    [assignmentId]. *)
Definition offers_form (assignmentId : Z) (form : jsstring) (card : CardHtml) : Prop :=
  form_slot card = Some (AnnotationForm assignmentId form).

End Card.

(* ===================================================================== *)
(** ** The webview script: claiming and submitting *)
(* ===================================================================== *)

Module Webview.

(** The result sent with a generic annotation: [JSON.parse(text)] when the
    text parses, otherwise the object [{ annotation: text }]. *)
Inductive AnnotationResult :=
| ParsedJSON (text : jsstring)
| AnnotationObject (annotation : jsstring).

(** Messages posted to the extension with [vscode.postMessage]. *)
Inductive Message :=
| ClaimTask (taskId : Z)
| ClaimTaskFromProject (projectId : Z)
| StartAssignment (assignmentId : Z)
| CancelAssignment (assignmentId : Z)
| SubmitAssignment (assignmentId : Z) (result : AnnotationResult)
| Other (type : jsstring).   (* refresh, logout, connect-wallet, ... *)

Definition is_claim (m : Message) : bool :=
  match m with
  | ClaimTask _ | ClaimTaskFromProject _ => true
  | _ => false
  end.

(** Callbacks given to [setTimeout]. *)
Inductive TimerAction :=
| ResetClaiming                 (* isClaimingTask = false *)
| RemoveErrorDiv (div : nat).   (* errorDiv.remove() *)

Definition is_reset (a : TimerAction) : bool :=
  match a with ResetClaiming => true | RemoveErrorDiv _ => false end.

Record Button := { disabled : bool; textContent : jsstring }.

(** The part of the document the three functions look at. *)
Record Dom := {
  claim_buttons : gmap Z Button;      (* [data-action="claim-task"], by task id *)
  project_buttons : gmap Z Button;    (* [data-action="claim-task-from-project"] *)
  generic_textareas : gmap Z jsstring;  (* value of #generic-annotation-<id> *)
  submit_buttons : gset Z;            (* submit buttons that have a parent *)
  error_divs : gmap nat (Z * jsstring); (* inserted notes: assignment, text *)
  next_div : nat
}.

Record State := {
  now : Z;                              (* milliseconds *)
  isClaimingTask : bool;
  timers : list (Z * TimerAction);      (* pending timeouts with their due time *)
  posted : list (Z * Message);          (* messages posted, with the time *)
  dom : Dom
}.

Definition initial (d : Dom) : State :=
  {| now := 0; isClaimingTask := false; timers := []; posted := []; dom := d |}.

Definition claiming (b : Button) : Button :=
  {| disabled := true; textContent := js "Claiming..." |}.

Definition disable_claim_button (taskId : Z) (d : Dom) : Dom :=
  {| claim_buttons := alter claiming taskId (claim_buttons d);
     project_buttons := project_buttons d;
     generic_textareas := generic_textareas d;
     submit_buttons := submit_buttons d;
     error_divs := error_divs d; next_div := next_div d |}.

Definition disable_project_button (projectId : Z) (d : Dom) : Dom :=
  {| claim_buttons := claim_buttons d;
     project_buttons := alter claiming projectId (project_buttons d);
     generic_textareas := generic_textareas d;
     submit_buttons := submit_buttons d;
     error_divs := error_divs d; next_div := next_div d |}.

Definition claimTask (taskId : Z) (s : State) : State :=
  if isClaimingTask s then s
  else
    {| now := now s;
       isClaimingTask := true;
       timers := timers s ++ [(now s + 3000, ResetClaiming)];
       posted := posted s ++ [(now s, ClaimTask taskId)];
       dom := disable_claim_button taskId (dom s) |}.

Definition claimTaskFromProject (projectId : Z) (s : State) : State :=
  if isClaimingTask s then s
  else
    {| now := now s;
       isClaimingTask := true;
       timers := timers s ++ [(now s + 3000, ResetClaiming)];
       posted := posted s ++ [(now s, ClaimTaskFromProject projectId)];
       dom := disable_project_button projectId (dom s) |}.

Definition insert_error_div (assignmentId : Z) (text : jsstring) (d : Dom) : Dom :=
  {| claim_buttons := claim_buttons d;
     project_buttons := project_buttons d;
     generic_textareas := generic_textareas d;
     submit_buttons := submit_buttons d;
     error_divs := <[next_div d := (assignmentId, text)]> (error_divs d);
     next_div := S (next_div d) |}.

Definition remove_error_div (n : nat) (d : Dom) : Dom :=
  {| claim_buttons := claim_buttons d;
     project_buttons := project_buttons d;
     generic_textareas := generic_textareas d;
     submit_buttons := submit_buttons d;
     error_divs := delete n (error_divs d);
     next_div := next_div d |}.

(** [vscode.postMessage(m)] *)
Definition post (m : Message) (s : State) : State :=
  {| now := now s; isClaimingTask := isClaimingTask s; timers := timers s;
     posted := posted s ++ [(now s, m)]; dom := dom s |}.

(** An error note is inserted before a submit button and scheduled for
    removal after 5000 ms. *)
Definition show_error (assignmentId : Z) (text : jsstring) (s : State) : State :=
  {| now := now s; isClaimingTask := isClaimingTask s;
     timers := timers s ++ [(now s + 5000, RemoveErrorDiv (next_div (dom s)))];
     posted := posted s;
     dom := insert_error_div assignmentId text (dom s) |}.

Section Submit.

(** Whether [JSON.parse] accepts a text. *)
Variable JSON_parses : jsstring -> bool.

Definition submitGenericAnnotation (assignmentId : Z) (s : State) : State :=
  let annotationText :=
    match generic_textareas (dom s) !! assignmentId with
    | Some value => trim value
    | None => []
    end in
  if negb (truthy annotationText) then
    if bool_decide (assignmentId ∈ submit_buttons (dom s)) then
      show_error assignmentId (js "Please provide an annotation.") s
    else s
  else
    let result :=
      if JSON_parses annotationText then ParsedJSON annotationText
      else AnnotationObject annotationText in
    post (SubmitAssignment assignmentId result) s.

End Submit.

#[global] Instance TimerAction_eq_dec : EqDecision TimerAction.
Proof. solve_decision. Defined.

(** A timeout fires: it leaves the pending list and its callback runs. *)
Fixpoint remove_timer (t : Z * TimerAction) (l : list (Z * TimerAction))
  : list (Z * TimerAction) :=
  match l with
  | [] => []
  | x :: r => if decide (x = t) then r else x :: remove_timer t r
  end.

Definition run_timer (t : Z * TimerAction) (s : State) : State :=
  match snd t with
  | ResetClaiming =>
      {| now := now s; isClaimingTask := false;
         timers := remove_timer t (timers s); posted := posted s; dom := dom s |}
  | RemoveErrorDiv n =>
      {| now := now s; isClaimingTask := isClaimingTask s;
         timers := remove_timer t (timers s); posted := posted s;
         dom := remove_error_div n (dom s) |}
  end.

Definition wait_until (t : Z) (s : State) : State :=
  {| now := t; isClaimingTask := isClaimingTask s; timers := timers s;
     posted := posted s; dom := dom s |}.

Definition render (d : Dom) (s : State) : State :=
  {| now := now s; isClaimingTask := isClaimingTask s; timers := timers s;
     posted := posted s; dom := d |}.

(** One turn of the event loop: a click handler runs (the three functions
    above, or another handler of the script, which posts a message that is
    no claim or shows an error note), time passes, a due timeout fires
    (never before its due time), or the page is re-rendered or edited. *)
Inductive step (JSON_parses : jsstring -> bool) : State -> State -> Prop :=
| step_claimTask taskId s :
    step JSON_parses s (claimTask taskId s)
| step_claimTaskFromProject projectId s :
    step JSON_parses s (claimTaskFromProject projectId s)
| step_submitGenericAnnotation assignmentId s :
    step JSON_parses s (submitGenericAnnotation JSON_parses assignmentId s)
| step_post m s :
    is_claim m = false -> step JSON_parses s (post m s)
| step_show_error assignmentId text s :
    step JSON_parses s (show_error assignmentId text s)
| step_wait t s :
    now s <= t -> step JSON_parses s (wait_until t s)
| step_timer t s :
    In t (timers s) -> fst t <= now s -> step JSON_parses s (run_timer t s)
| step_render d s :
    step JSON_parses s (render d s).

(** The states of one load of the webview script: the flag starts clear
    and no timeout is pending. *)
Definition reachable (JSON_parses : jsstring -> bool) (s : State) : Prop :=
  exists d, rtc (step JSON_parses) (initial d) s.

(** The times at which claim messages were posted, oldest first. *)
Definition claim_times (s : State) : list Z :=
  map fst (filter (fun p => is_claim (snd p) = true) (posted s)).

(** The due times of the pending flag resets. *)
Definition reset_times (s : State) : list Z :=
  map fst (filter (fun p => is_reset (snd p) = true) (timers s)).

End Webview.

(* ===================================================================== *)
(** ** Vocabulary of the properties *)
(* ===================================================================== *)

(** ['0x' followed by exactly 40 hexadecimal characters]. *)
Definition hex_address (a : jsstring) : Prop :=
  exists body, a = js "0x" ++ body /\ length body = 40%nat /\
               Forall (fun c => is_hex c = true) body.

(** Lower-casing of the hexadecimal letters. *)
Definition fold_case (c : code_unit) : code_unit :=
  if is_upper_hex c then (c + 32)%N else c.

Definition mixed_case (a : jsstring) : bool :=
  existsb is_upper_hex (drop 2 a) && existsb is_lower_hex (drop 2 a).

(** A checksum on letter case (such as EIP-55) fixes the case of every
    letter from the address itself: of two mixed-case spellings of one
    address at most one carries a valid checksum. *)
Definition case_checksum (ok : jsstring -> Prop) : Prop :=
  forall a b, mixed_case a = true -> mixed_case b = true ->
              map fold_case a = map fold_case b -> ok a -> ok b -> a = b.

(** Every selected id is the id of a pending assignment. *)
Definition selection_pending (st : App.State) : Prop :=
  Forall (fun i => is_Some (App.find_assignment st i)) (App.selectedAssignments st).

(** The "Approve Selected" button is rendered. *)
Definition batch_button_shown (st : App.State) : Prop :=
  App.pendingAssignments st <> [] /\ App.selectedAssignments st <> [].

(** The invariant of the review panel: while assignments are listed, the
    selection holds ids of listed assignments only. *)
Definition selection_invariant (st : App.State) : Prop :=
  App.pendingAssignments st <> [] -> selection_pending st.

(** The second loop counts a request as a success exactly when it
    resolves; the body of the response is not read. *)
Definition resolves (env : App.Env) (st : App.State) (i : Z) : bool :=
  match App.approve env i (App.paymentAmount st i) with
  | Resolved _ => true
  | Rejected _ => false
  end.

(** The default amount of a pending assignment: the price of the project
    its task belongs to, or 5.00 when that project or its price is unknown. *)
Definition default_amount (st : App.State) (i : Z) (amount : Number) : Prop :=
  exists a, App.find_assignment st i = Some a /\
    match App.find_project st (App.task_of a) with
    | Some p =>
        match App.price_per_task p with
        | Some s => if truthy s then amount = parseFloat s else amount = 5%float
        | None => amount = 5%float
        end
    | None => amount = 5%float
    end.

(** [x] is the first element of [l] with the property [P]. *)
Definition first_with {A : Type} (P : A -> Prop) (l : list A) (x : A) : Prop :=
  exists before after,
    l = before ++ x :: after /\ P x /\ Forall (fun y => ~ P y) before.

(** The project an assignment's task names: the task is [task_data], or
    [task] when the assignment carries no [task_data]. *)
Definition named_project (a : App.Assignment) : option Z :=
  match App.task_data a, App.task a with
  | Some t, _ => App.project t
  | None, Some t => App.project t
  | None, None => None
  end.

(** The owning project of an assignment: the loaded project with the id
    its task names. *)
Definition owning_project (st : App.State) (a : App.Assignment)
           (p : App.LabelStudioProject) : Prop :=
  exists pid, named_project a = Some pid /\
              first_with (fun q => App.project_id q = pid) (App.projects st) p.

(** The owning project is known and states the price [price]. *)
Definition known_price (st : App.State) (a : App.Assignment) (price : jsstring) : Prop :=
  exists p, owning_project st a p /\ App.price_per_task p = Some price /\ price <> [].

(** The amount due for the pending assignment [i]: the number its owning
    project's [price_per_task] denotes, or 5.00 when the project or its
    price is unknown. *)
Definition project_price_or_5 (st : App.State) (i : Z) (amount : Number) : Prop :=
  exists a,
    first_with (fun b => App.assignment_id b = i) (App.pendingAssignments st) a /\
    ((exists price, known_price st a price /\ amount = parseFloat price) \/
     ((forall price, ~ known_price st a price) /\ amount = 5%float)).

(** The login response names a user whose [user_type] is 'annotator'. *)
Definition annotator_login (request : Outcome Auth.LoginData Auth.RequestError) : Prop :=
  exists data u, request = Resolved data /\ Auth.user data = Some u /\
                 Auth.user_type u = js "annotator".

(** The pre-terminal working states. *)
Definition working_status (status : jsstring) : Prop :=
  status = js "assigned" \/ status = js "accepted" \/ status = js "in_progress".

(** Any two entries of the list are at least 3000 ms apart, in order. *)
Definition spaced (l : list Z) : Prop :=
  forall i j ti tj, l !! i = Some ti -> l !! j = Some tj -> (i < j)%nat ->
                    ti + 3000 <= tj.

(** While the flag is set exactly one reset is pending, due 3000 ms after
    the last claim message; while it is clear none is pending and the last
    claim message is at least 3000 ms old. *)
Definition guard_invariant (s : Webview.State) : Prop :=
  spaced (Webview.claim_times s) /\
  match last (Webview.claim_times s) with
  | None => Webview.isClaimingTask s = false /\ Webview.reset_times s = []
  | Some t0 =>
      t0 <= Webview.now s /\
      if Webview.isClaimingTask s
      then Webview.reset_times s = [t0 + 3000]
      else Webview.reset_times s = [] /\ t0 + 3000 <= Webview.now s
  end.

(** The text [submitGenericAnnotation] reads for an assignment. *)
Definition annotation_text (assignmentId : Z) (s : Webview.State) : jsstring :=
  match Webview.generic_textareas (Webview.dom s) !! assignmentId with
  | Some value => trim value
  | None => []
  end.

(* ===================================================================== *)
(** ** Concrete inputs *)
(* ===================================================================== *)

(** Two spellings of one address that differ in the case of a single
    letter (the first is the example address of EIP-55). *)
Definition address_spelling_1 : jsstring :=
  js "0x5aAeb6053F3E94C9b9A09f33669435E7Ef1BeAed".
Definition address_spelling_2 : jsstring :=
  js "0x5AAeb6053F3E94C9b9A09f33669435E7Ef1BeAed".

(** The number 0.0000001. *)
Definition tiny_amount : Number := parseFloat (js "0.0000001").

(** The outside that confirms every question, lists the assignments [l]
    as submitted and answers approve requests with [approve]. *)
Definition listing_env (l : list App.Assignment)
           (approve : Z -> Number -> Outcome App.ApproveResponse App.AxiosError)
  : App.Env :=
  {| App.window_confirm := fun _ => true;
     App.approve := approve;
     App.reject := fun _ _ => Resolved tt;
     App.list_assignments := fun _ => Resolved l |}.

Definition approve_ok : Z -> Number -> Outcome App.ApproveResponse App.AxiosError :=
  fun _ _ => Resolved {| App.payment_status := Some (js "completed") |}.

(** The state reached by loading the projects [ps], listing the submitted
    assignments [l] and ticking "Select All". *)
Definition review_state (ps : list App.LabelStudioProject)
           (l : list App.Assignment) : App.State :=
  App.toggleSelectAll
    (fst (App.loadPendingAssignments (listing_env l approve_ok)
            (App.setProjects ps App.initial))).

Definition pending (i : Z) (p : option Z) : App.Assignment :=
  {| App.assignment_id := i;
     App.task_data := Some {| App.project := p |};
     App.task := None |}.

Definition priced (i : Z) (price : option jsstring) : App.LabelStudioProject :=
  {| App.project_id := i; App.price_per_task := price |}.

(** Four submitted assignments: two of priced projects, one of a project
    without price, one whose task names no project. *)
Definition mixed_review : App.State :=
  review_state
    [priced 1 (Some (js "2.50")); priced 2 (Some (js "20000")); priced 3 None]
    [pending 11 (Some 1); pending 12 (Some 2); pending 13 (Some 3); pending 14 None].

(** Two submitted assignments of projects priced 0.10 and 0.20. *)
Definition dimes_review : App.State :=
  review_state
    [priced 1 (Some (js "0.10")); priced 2 (Some (js "0.20"))]
    [pending 11 (Some 1); pending 12 (Some 2)].

Definition settlement_reason : jsstring := js "Insufficient USDC balance".

(** The approve endpoint fails and gives the reason in [error]. *)
Definition approve_fails : Z -> Number -> Outcome App.ApproveResponse App.AxiosError :=
  fun _ _ => Rejected {| App.response_data_error := Some settlement_reason |}.

Definition one_review : App.State :=
  review_state [priced 1 (Some (js "5.00"))] [pending 11 (Some 1)].

(** One submitted assignment of a project priced 0.001. *)
Definition milli_review : App.State :=
  review_state [priced 1 (Some (js "0.001"))] [pending 11 (Some 1)].

Definition researcher : Auth.User :=
  {| Auth.user_id := 2; Auth.username := js "rita"; Auth.email := js "rita@lab.org";
     Auth.user_type := js "researcher"; Auth.usdc_balance := js "0.00";
     Auth.base_wallet_address := None |}.

Definition researcher_login : Outcome Auth.LoginData Auth.RequestError :=
  Resolved {| Auth.token := Some (js "t0k3n"); Auth.user := Some researcher |}.

Definition lost_race_env : TaskPanel.Env :=
  {| TaskPanel.claimTask := fun _ =>
       Rejected {| TaskPanel.response_status := Some 400;
                   TaskPanel.message := js "Request failed with status code 400" |};
     TaskPanel.refresh_after_claim := Resolved tt;
     TaskPanel.refresh_after_error := Resolved tt |}.

(** A page with one claim button. *)
Definition one_button : Webview.Dom :=
  {| Webview.claim_buttons :=
       {[ 1 := {| Webview.disabled := false; Webview.textContent := js "Claim Task" |} ]};
     Webview.project_buttons := ∅;
     Webview.generic_textareas := ∅;
     Webview.submit_buttons := ∅;
     Webview.error_divs := ∅;
     Webview.next_div := 0 |}.

(** A run: a claim at time 0, a second click at 1000 ms, the timeout at
    3000 ms, then a claim from a project. *)
Definition run_1 : Webview.State := Webview.claimTask 1 (Webview.initial one_button).
Definition run_2 : Webview.State := Webview.wait_until 1000 run_1.
Definition run_3 : Webview.State := Webview.claimTask 2 run_2.
Definition run_4 : Webview.State := Webview.wait_until 3000 run_3.
Definition run_5 : Webview.State := Webview.run_timer (3000, Webview.ResetClaiming) run_4.
Definition run_6 : Webview.State := Webview.claimTaskFromProject 3 run_5.

Definition blank_form : Webview.State :=
  Webview.initial
    {| Webview.claim_buttons := ∅;
       Webview.project_buttons := ∅;
       Webview.generic_textareas := {[ 2 := js "   " ]};
       Webview.submit_buttons := {[ 2 ]};
       Webview.error_divs := ∅;
       Webview.next_div := 0 |}.

(* ===================================================================== *)
(** ** The other validators, handlers and helpers of these files *)
(* ===================================================================== *)

(** *** Regular expressions of the validators *)

(** The fragment of JavaScript regular expressions the validators use:
    character classes, concatenation, alternation and repetition.  A
    pattern written [/^r$/] is tested against the whole string. *)
Module Regex.

Inductive regex :=
| Void                                   (* matches nothing *)
| Eps                                    (* the empty string *)
| Class (p : code_unit -> bool)          (* one character of a class *)
| Cat (r s : regex)
| Alt (r s : regex)
| Star (r : regex).

(** [r+] *)
Definition Plus (r : regex) : regex := Cat r (Star r).

Fixpoint nullable (r : regex) : bool :=
  match r with
  | Void => false
  | Eps => true
  | Class _ => false
  | Cat r s => nullable r && nullable s
  | Alt r s => nullable r || nullable s
  | Star _ => true
  end.

(** The derivative of [r] by the character [c]. *)
Fixpoint deriv (c : code_unit) (r : regex) : regex :=
  match r with
  | Void => Void
  | Eps => Void
  | Class p => if p c then Eps else Void
  | Cat r s =>
      if nullable r then Alt (Cat (deriv c r) s) (deriv c s)
      else Cat (deriv c r) s
  | Alt r s => Alt (deriv c r) (deriv c s)
  | Star r => Cat (deriv c r) (Star r)
  end.

(** [/^r$/.test(s)] *)
Fixpoint test (r : regex) (s : jsstring) : bool :=
  match s with
  | [] => nullable r
  | c :: s' => test (deriv c r) s'
  end.

(** The strings a pattern denotes. *)
Inductive lang : regex -> jsstring -> Prop :=
| lang_eps : lang Eps []
| lang_class p c : p c = true -> lang (Class p) [c]
| lang_cat r s u v : lang r u -> lang s v -> lang (Cat r s) (u ++ v)
| lang_alt_l r s u : lang r u -> lang (Alt r s) u
| lang_alt_r r s u : lang s u -> lang (Alt r s) u
| lang_star_nil r : lang (Star r) []
| lang_star_cons r u v : lang r u -> lang (Star r) v -> lang (Star r) (u ++ v).

End Regex.

(** Character classes. *)
Definition is_upper (c : code_unit) : bool := ((65 <=? c) && (c <=? 90))%N.
Definition is_lower (c : code_unit) : bool := ((97 <=? c) && (c <=? 122))%N.

(** [[a-zA-Z0-9_-]] *)
Definition is_username_char (c : code_unit) : bool :=
  is_lower c || is_upper c || is_digit c || N.eqb c 95 || N.eqb c 45.

(** [[^\s@]] *)
Definition is_email_char (c : code_unit) : bool :=
  negb (isWhiteSpaceOrLineTerminator c || N.eqb c 64).

(** The class of special characters tested by [validatePassword]: the
    ASCII punctuation marks except the backquote and the tilde. *)
Definition is_special_char (c : code_unit) : bool :=
  existsb (N.eqb c)
    [33; 64; 35; 36; 37; 94; 38; 42; 40; 41; 95; 43; 45; 61; 91; 93; 123; 125;
     59; 39; 58; 34; 92; 124; 44; 46; 60; 62; 47; 63]%N.

(** [/^[a-zA-Z0-9_-]+$/] *)
Definition username_regex : Regex.regex := Regex.Plus (Regex.Class is_username_char).

(** [/^[^\s@]+@[^\s@]+\.[^\s@]+$/] *)
Definition email_regex : Regex.regex :=
  Regex.Cat (Regex.Plus (Regex.Class is_email_char))
    (Regex.Cat (Regex.Class (N.eqb 64))
       (Regex.Cat (Regex.Plus (Regex.Class is_email_char))
          (Regex.Cat (Regex.Class (N.eqb 46))
             (Regex.Plus (Regex.Class is_email_char))))).

(** The remaining validators of the extension's [utils/validation.ts]. *)
Module ExtensionValidators.

Definition validateEmail (email : jsstring) : option jsstring :=
  if negb (truthy email) then Some (js "Email is required")
  else if negb (Regex.test email_regex email) then
    Some (js "Please enter a valid email address")
  else None.

Definition validatePassword (password : jsstring) : option jsstring :=
  if negb (truthy password) then Some (js "Password is required")
  else if (length password <? 8)%nat then
    Some (js "Password must be at least 8 characters")
  else None.

Definition validateUsername (username : jsstring) : option jsstring :=
  if negb (truthy username) then Some (js "Username is required")
  else if (length username <? 3)%nat then
    Some (js "Username must be at least 3 characters")
  else if (30 <? length username)%nat then
    Some (js "Username must be less than 30 characters")
  else if negb (Regex.test username_regex username) then
    Some (js "Username can only contain letters, numbers, underscores, and hyphens")
  else None.

End ExtensionValidators.

(** The remaining validators of the frontend's [utils/validation.ts]
    ([validateURL] and [sanitizeInput] apart). *)
Module FrontendValidators.

Definition commonTypos : list jsstring :=
  [js "gamil.com"; js "gmial.com"; js "yahooo.com"; js "hotmial.com"].

Definition weakPasswords : list jsstring :=
  [js "Password123!"; js "Admin123!"; js "Welcome123!"].

Section Email.

(** [String.prototype.toLowerCase] *)
Variable toLowerCase : jsstring -> jsstring.

Definition validateEmail (email : jsstring) : option jsstring :=
  if negb (truthy email) then Some (js "Email is required")
  else if negb (Regex.test email_regex email) then
    Some (js "Please enter a valid email address")
  else
    (* email.split('@')[1]?.toLowerCase() *)
    let domain := toLowerCase <$> (split 64%N email !! 1%nat) in
    if from_option (fun d => truthy d && existsb (jsstring_eqb d) commonTypos)
                   false domain
    then Some (js "Did you mean a different domain? Please check your email")
    else None.

End Email.

Definition validatePassword (password : jsstring) : option jsstring :=
  if negb (truthy password) then Some (js "Password is required")
  else if (length password <? 8)%nat then
    Some (js "Password must be at least 8 characters long")
  else if (128 <? length password)%nat then
    Some (js "Password must be less than 128 characters")
  else if negb (existsb is_upper password) then
    Some (js "Password must contain at least one uppercase letter")
  else if negb (existsb is_lower password) then
    Some (js "Password must contain at least one lowercase letter")
  else if negb (existsb is_digit password) then
    Some (js "Password must contain at least one number")
  else if negb (existsb is_special_char password) then
    Some (js "Password must contain at least one special character")
  else if existsb (jsstring_eqb password) weakPasswords then
    Some (js "This password is too common. Please choose a different one")
  else None.

Definition validateUsername (username : jsstring) : option jsstring :=
  if negb (truthy username) then Some (js "Username is required")
  else if (length username <? 3)%nat then
    Some (js "Username must be at least 3 characters long")
  else if (30 <? length username)%nat then
    Some (js "Username must be less than 30 characters")
  else if negb (Regex.test username_regex username) then
    Some (js "Username can only contain letters, numbers, underscores, and hyphens")
  else None.

End FrontendValidators.

(** An accepted user name: 3 to 30 characters, each a letter, a digit, an
    underscore or a hyphen. *)
Definition username_shape (u : jsstring) : Prop :=
  (3 <= length u <= 30)%nat /\ Forall (fun c => is_username_char c = true) u.

(** The two parts of an accepted e-mail address [local@domain]: no
    whitespace and no further '@' in either, the local part not empty, the
    domain with a '.' that is neither its first nor its last character. *)
Definition email_parts (e local domain : jsstring) : Prop :=
  e = local ++ 64%N :: domain /\ local <> [] /\
  Forall (fun c => is_email_char c = true) local /\
  Forall (fun c => is_email_char c = true) domain /\
  exists before after, domain = before ++ 46%N :: after /\
                       before <> [] /\ after <> [].

Definition email_shape (e : jsstring) : Prop :=
  exists local domain, email_parts e local domain.

(** What the frontend asks of a password. *)
Definition strong_password (p : jsstring) : Prop :=
  (8 <= length p <= 128)%nat /\
  Exists (fun c => is_upper c = true) p /\
  Exists (fun c => is_lower c = true) p /\
  Exists (fun c => is_digit c = true) p /\
  Exists (fun c => is_special_char c = true) p /\
  ~ In p FrontendValidators.weakPasswords.

(** [StorageManager.clear] and [AuthManager.updateWalletAddress]. *)
Module StorageManager.

(** [globalState.keys()] *)
Definition keys (st : Auth.Storage) : list string := (map_to_list st).*1.

(** [clear]: every key of [globalState] is updated with [undefined]. *)
Definition clear (st : Auth.Storage) : Auth.Storage :=
  foldl (fun acc key => Auth.storage_set key None acc) st (keys st).

End StorageManager.

Module Wallet.

(** The rejection of [PATCH /users/<id>/]:
    [error.response?.data?.base_wallet_address], the list of messages of
    the field when the server sends one, and [error.response?.data?.error]. *)
Record RequestError := {
  data_base_wallet_address : option (list jsstring);
  data_error : option jsstring
}.

Inductive Thrown :=
| Error (message : jsstring)
| Rethrown (e : RequestError).

(** The request: the [id] read from the stored user ([undefined] when the
    stored value has none) and the body's [base_wallet_address]. *)
Inductive Effect :=
| PatchUser (id : option Z) (base_wallet_address : jsstring).

(** [!user] for what [getUser] returns. *)
Definition no_user (user : option Auth.Value) : bool :=
  match user with
  | None | Some Auth.VNull => true
  | Some (Auth.VString s) => negb (truthy s)
  | Some (Auth.VUser _) => false
  end.

Definition id_of (user : option Auth.Value) : option Z :=
  match user with
  | Some (Auth.VUser u) => Some (Auth.user_id u)
  | _ => None
  end.

(** The [catch] clause; an array is truthy even when it is empty, and its
    missing first element prints as [undefined]. *)
Definition update_catch (error : Thrown) : Thrown :=
  match error with
  | Rethrown e =>
      match data_base_wallet_address e with
      | Some messages =>
          Error (js "Wallet: " ++ from_option id (js "undefined") (head messages))
      | None =>
          match data_error e with
          | Some m => if truthy m then Error m else error
          | None => error
          end
      end
  | Error _ => error
  end.

Section Update.

(** How the request settles.  [response.data] is whatever the body holds:
    a user object, a string (the empty string for an empty body), [null],
    or nothing at all ([undefined]); it is stored and returned as it is. *)
Variable patch : option Z -> jsstring -> Outcome (option Auth.Value) RequestError.

Definition updateWalletAddress (walletAddress : jsstring) (st : Auth.Storage)
  : (Thrown + option Auth.Value) * Auth.Storage * list Effect :=
  let user := Auth.getUser st in
  if no_user user then
    (inl (update_catch (Error (js "User not authenticated"))), st, [])
  else
    let request := [PatchUser (id_of user) walletAddress] in
    match patch (id_of user) walletAddress with
    | Rejected e => (inl (update_catch (Rethrown e)), st, request)
    | Resolved updatedUser =>
        (inr updatedUser, Auth.storage_set "user" updatedUser st, request)
    end.

End Update.

End Wallet.

(** An annotator and a login response that carries no token. *)
Definition annotator : Auth.User :=
  {| Auth.user_id := 7; Auth.username := js "ann"; Auth.email := js "ann@lab.org";
     Auth.user_type := js "annotator"; Auth.usdc_balance := js "0.00";
     Auth.base_wallet_address := None |}.

Definition tokenless_login : Auth.LoginData :=
  {| Auth.token := None; Auth.user := Some annotator |}.

Definition stale_session : Auth.Storage :=
  {[ "authToken"%string := Auth.VString (js "old") ]}.

(** The other handlers of [TaskPanelProvider]. *)
Module Handlers.

(** What the handlers read of a rejected request: [error.response?.status],
    [error.message], and of [error.response.data] the first message of
    [annotation_result] and [detail]. *)
Record RequestError := {
  response_status : option Z;
  message : jsstring;
  annotation_result_0 : option jsstring;
  detail : option jsstring
}.

Inductive Effect :=
| ShowInformationMessage (text : jsstring)
| ShowErrorMessage (text : jsstring)
| StartAssignmentCall (assignmentId : Z)
| SubmitAssignmentCall (assignmentId : Z) (result : jsstring)
| CancelAssignmentCall (assignmentId : Z)
| RefreshCall.

Definition is_notification (e : Effect) : bool :=
  match e with
  | ShowInformationMessage _ | ShowErrorMessage _ => true
  | _ => false
  end.

Definition is_error_message (e : Effect) : bool :=
  match e with ShowErrorMessage _ => true | _ => false end.

Definition is_refresh (e : Effect) : bool :=
  match e with RefreshCall => true | _ => false end.

Section Handlers.

(** How the awaited calls settle: the request, the refresh inside [try]
    and, for [handleSubmitAssignment], the refresh inside [catch]. *)
Variable request : Outcome unit RequestError.
Variable refresh : Outcome unit RequestError.
Variable refresh_after_error : Outcome unit RequestError.

(** [handleStartAssignment] *)
Definition handleStartAssignment (assignmentId : Z)
  : list Effect * Outcome unit RequestError :=
  let failed error :=
    ShowErrorMessage (js "Failed to start task: " ++ message error) in
  match request with
  | Rejected error => ([StartAssignmentCall assignmentId; failed error], Resolved tt)
  | Resolved _ =>
      let done_ := [StartAssignmentCall assignmentId;
                    ShowInformationMessage (js "Started working on task!");
                    RefreshCall] in
      match refresh with
      | Rejected error => (done_ ++ [failed error], Resolved tt)
      | Resolved _ => (done_, Resolved tt)
      end
  end.

(** [handleCancelAssignment] *)
Definition handleCancelAssignment (assignmentId : Z)
  : list Effect * Outcome unit RequestError :=
  let failed error :=
    ShowErrorMessage (js "Failed to cancel assignment: " ++ message error) in
  match request with
  | Rejected error => ([CancelAssignmentCall assignmentId; failed error], Resolved tt)
  | Resolved _ =>
      let done_ :=
        [CancelAssignmentCall assignmentId;
         ShowInformationMessage
           (js "Assignment cancelled. Task is now available for others.");
         RefreshCall] in
      match refresh with
      | Rejected error => (done_ ++ [failed error], Resolved tt)
      | Resolved _ => (done_, Resolved tt)
      end
  end.

(** The [catch] clause of [handleSubmitAssignment]. *)
Definition submit_error_message (error : RequestError) : jsstring :=
  match response_status error with
  | Some 400 =>
      js "Submission failed: "
      ++ or_else (annotation_result_0 error)
           (or_else (detail error) (js "Invalid annotation format"))
  | Some 403 => js "You do not have permission to submit this assignment."
  | Some 404 => js "Assignment not found. It may have been cancelled."
  | _ => js "Failed to submit task: " ++ message error
  end.

(** [handleSubmitAssignment] *)
Definition handleSubmitAssignment (assignmentId : Z) (result : jsstring)
  : list Effect * Outcome unit RequestError :=
  let caught error := [ShowErrorMessage (submit_error_message error); RefreshCall] in
  match request with
  | Rejected error =>
      (SubmitAssignmentCall assignmentId result :: caught error, refresh_after_error)
  | Resolved _ =>
      let done_ :=
        [SubmitAssignmentCall assignmentId result;
         ShowInformationMessage
           (js "Task submitted successfully! You will be paid once the researcher approves it.");
         RefreshCall] in
      match refresh with
      | Rejected error => (done_ ++ caught error, refresh_after_error)
      | Resolved _ => (done_, Resolved tt)
      end
  end.

End Handlers.

End Handlers.

(** [escapeHtml] as the webview script writes it: five global replacements,
    one after the other. *)
Module Escape.

(** [s.replace(/c/g, by)] for a single character [c]. *)
Definition replace_all (c : code_unit) (by_ : jsstring) (s : jsstring) : jsstring :=
  flat_map (fun x => if N.eqb x c then by_ else [x]) s.

Definition escapeHtml (unsafe : jsstring) : jsstring :=
  replace_all 39%N (js "&#039;")
    (replace_all 34%N (js "&quot;")
       (replace_all 62%N (js "&gt;")
          (replace_all 60%N (js "&lt;")
             (replace_all 38%N (js "&amp;") unsafe)))).

End Escape.

(** The notifications among the effects of [handleClaimTask]. *)
Definition notifications (effs : list TaskPanel.Effect) : list TaskPanel.Effect :=
  List.filter (fun e => match e with
                        | TaskPanel.ShowInformationMessage _
                        | TaskPanel.ShowErrorMessage _ => true
                        | _ => false
                        end) effs.

(** The session handlers of [App.tsx] and the [authAPI] they call. *)
Module Session.

(** What the app reads of a user. *)
Record User := { user_type : jsstring }.

Inductive View := Landing | LoginView | RegisterView.

(** [response.data] of the login and register requests. *)
Record AuthData := { token : option jsstring; data_user : option User }.

(** Of a rejected request: [err.response?.data?.error], [.detail] and the
    first message of [.username], [.email] and [.password]. *)
Record AxiosError := {
  data_error : option jsstring;
  data_detail : option jsstring;
  data_username_0 : option jsstring;
  data_email_0 : option jsstring;
  data_password_0 : option jsstring
}.

Record RegisterData := {
  username : jsstring;
  email : jsstring;
  password : jsstring;
  confirmPassword : jsstring;
  register_user_type : jsstring
}.

(** The state of the component the handlers touch, and the [authToken]
    item of [localStorage]. *)
Record State := {
  isAuthenticated : bool;
  user : option User;
  view : View;
  loading : bool;
  error : jsstring;
  authToken : option jsstring
}.

Inductive Effect :=
| LoginRequest (username password : jsstring)
| RegisterRequest (username email password user_type : jsstring)
| LogoutRequest.

Definition setLoading (b : bool) (st : State) : State :=
  {| isAuthenticated := isAuthenticated st; user := user st; view := view st;
     loading := b; error := error st; authToken := authToken st |}.

Definition setError (e : jsstring) (st : State) : State :=
  {| isAuthenticated := isAuthenticated st; user := user st; view := view st;
     loading := loading st; error := e; authToken := authToken st |}.

Definition setUser (u : option User) (st : State) : State :=
  {| isAuthenticated := isAuthenticated st; user := u; view := view st;
     loading := loading st; error := error st; authToken := authToken st |}.

Definition setIsAuthenticated (b : bool) (st : State) : State :=
  {| isAuthenticated := b; user := user st; view := view st;
     loading := loading st; error := error st; authToken := authToken st |}.


(** [localStorage.setItem('authToken', t)] and [removeItem]. *)
Definition setItem (t : jsstring) (st : State) : State :=
  {| isAuthenticated := isAuthenticated st; user := user st; view := view st;
     loading := loading st; error := error st; authToken := Some t |}.


(** [if (response.data.token) localStorage.setItem('authToken', ...)] *)
Definition store_token (data : AuthData) (st : State) : State :=
  match token data with
  | Some t => if truthy t then setItem t st else st
  | None => st
  end.


Definition register_error (err : AxiosError) : jsstring :=
  or_else (data_error err)
    (or_else (data_detail err)
       (or_else (data_username_0 err)
          (or_else (data_email_0 err)
             (or_else (data_password_0 err) (js "Registration failed"))))).

Section Handlers.

Variable toLowerCase : jsstring -> jsstring.

(** How the requests settle. *)
Variable login : jsstring -> jsstring -> Outcome AuthData AxiosError.
Variable register :
  jsstring -> jsstring -> jsstring -> jsstring -> Outcome AuthData AxiosError.
Variable logout : Outcome unit AxiosError.


(** [handleRegister], with [authAPI.register] *)
Definition handleRegister (registerData : RegisterData) (st : State)
  : State * list Effect :=
  let st1 := setError [] (setLoading true st) in
  let stop message := (setLoading false (setError message st1), []) in
  let usernameError := FrontendValidators.validateUsername (username registerData) in
  if from_option truthy false usernameError then stop (default [] usernameError)
  else
    let emailError :=
      FrontendValidators.validateEmail toLowerCase (email registerData) in
    if from_option truthy false emailError then stop (default [] emailError)
    else
      let passwordError :=
        FrontendValidators.validatePassword (password registerData) in
      if from_option truthy false passwordError then stop (default [] passwordError)
      else if negb (jsstring_eqb (password registerData)
                                 (confirmPassword registerData))
      then stop (js "Passwords do not match")
      else
        let request :=
          [RegisterRequest (username registerData) (email registerData)
             (password registerData) (register_user_type registerData)] in
        match register (username registerData) (email registerData)
                (password registerData) (register_user_type registerData) with
        | Resolved data =>
            (setLoading false
               (setIsAuthenticated true
                  (setUser (data_user data) (store_token data st1))),
             request)
        | Rejected err =>
            (setLoading false (setError (register_error err) st1), request)
        end.


End Handlers.

End Session.

(** [GitHubOAuth]: the state parameter kept in [sessionStorage]. *)
Module GitHubOAuth.

Definition SessionStorage := gmap string jsstring.

Section OAuth.

(** What [generateState] draws. *)
Variable generateState : jsstring.

(** [login]: the new [sessionStorage] and the [state] put in the
    authorization URL. *)
Definition login (state : option jsstring) (ss : SessionStorage)
  : SessionStorage * jsstring :=
  let authState := or_else state generateState in
  (<["github_oauth_state"%string := authState]> ss, authState).

End OAuth.

Definition validateState (state : jsstring) (ss : SessionStorage)
  : bool * SessionStorage :=
  let storedState := ss !! "github_oauth_state"%string in
  (match storedState with
   | Some stored => jsstring_eqb state stored
   | None => false
   end,
   delete "github_oauth_state"%string ss).

End GitHubOAuth.

(** The webview script: the forms for translation ratings and for
    classifications. *)
Module Forms.

(** [{ rating, comment }] and [{ choices, caption }] after the JSON round
    trip that drops the fields left [undefined]. *)
Record MTResult := { rating : jsstring; comment : option jsstring }.

Inductive Choices :=
| OneChoice (choice : jsstring)          (* [choices[0]] *)
| ManyChoices (choices : list jsstring).

Record ClassificationResult := { choices : Choices; caption : option jsstring }.

Inductive Message :=
| SubmitMT (assignmentId : Z) (result : MTResult)
| SubmitClassification (assignmentId : Z) (result : ClassificationResult).

(** What the two functions look up in the document, by assignment. *)
Record Document := {
  rating_checked : Z -> option jsstring;  (* value of input[name="rating-<id>"]:checked *)
  comment_value : Z -> option jsstring;   (* value of #comment-<id> *)
  choices_checked : Z -> list jsstring;   (* values of input[name="choice-<id>"]:checked *)
  caption_value : Z -> option jsstring;   (* value of #caption-<id> *)
  textarea_value : Z -> option jsstring;  (* value of #textarea-<id> *)
  mt_button : Z -> bool;                  (* the submit button is there, with a parent *)
  classification_button : Z -> bool
}.

(** [vscode.postMessage], and an error note inserted before the submit
    button (with its removal after 5000 ms). *)
Inductive Effect :=
| PostMessage (m : Message)
| ShowError (assignmentId : Z) (text : jsstring).

(** [textarea ? textarea.value.trim() : ''] *)
Definition trimmed (textarea : option jsstring) : jsstring :=
  match textarea with
  | Some value => trim value
  | None => []
  end.

(** [text || undefined] *)
Definition optional (text : jsstring) : option jsstring :=
  if truthy text then Some text else None.

Definition submitMTEvaluation (doc : Document) (assignmentId : Z) : list Effect :=
  match rating_checked doc assignmentId with
  | None =>
      if mt_button doc assignmentId
      then [ShowError assignmentId (js "Please select a translation quality rating.")]
      else []
  | Some rating =>
      let comment := trimmed (comment_value doc assignmentId) in
      [PostMessage
         (SubmitMT assignmentId {| rating := rating; comment := optional comment |})]
  end.

Definition submitClassification (doc : Document) (assignmentId : Z) : list Effect :=
  let choices := choices_checked doc assignmentId in
  if Nat.eqb (length choices) 0 then
    if classification_button doc assignmentId
    then [ShowError assignmentId (js "Please select at least one option.")]
    else []
  else
    let captionTextarea :=
      match caption_value doc assignmentId with
      | Some value => Some value
      | None => textarea_value doc assignmentId
      end in
    let caption := trimmed captionTextarea in
    [PostMessage
       (SubmitClassification assignmentId
          {| choices := match choices with
                        | [choice] => OneChoice choice
                        | _ => ManyChoices choices
                        end;
             caption := optional caption |})].

End Forms.

(** A text field that is missing or holds only whitespace. *)
Definition blank (textarea : option jsstring) : Prop :=
  match textarea with
  | Some value => forallb isWhiteSpaceOrLineTerminator value = true
  | None => True
  end.

(* ===================================================================== *)
(** ** Properties *)
(* ===================================================================== *)

(** *** Sanity checks of the builtins and validators *)

Example parseFloat_examples :
  map (fun s => toString (parseFloat (js s)))
      ["5.00"; "0.10"; "1e-7"; " 12abc"; "abc"; "0.000001"; "1.234"; "1e21"]%string
  = map js ["5"; "0.1"; "1e-7"; "12"; "NaN"; "0.000001"; "1.234"; "1e+21"]%string.
Proof. vm_compute. reflexivity. Qed.

Example toString_examples :
  map toString
      [PrimFloat.add (parseFloat (js "0.1")) (parseFloat (js "0.2"));
       parseFloat (js "0.000001"); parseFloat (js "0.0000001");
       parseFloat (js "0.00000015"); parseFloat (js "123456789012345678901");
       parseFloat (js "1e21"); parseFloat (js "-2.50"); PrimFloat.nan;
       PrimFloat.infinity; PrimFloat.neg_zero]
  = map js ["0.30000000000000004"; "0.000001"; "1e-7"; "1.5e-7";
            "123456789012345680000"; "1e+21"; "-2.5"; "NaN"; "Infinity"; "0"]%string.
Proof. vm_compute. reflexivity. Qed.

Example toFixed_examples :
  map (fun s => toFixed 2 (parseFloat (js s)))
      ["5"; "0.1"; "1.005"; "0.125"; "10000"; "0"; "-1.5"]%string
  = map js ["5.00"; "0.10"; "1.00"; "0.13"; "10000.00"; "0.00"; "-1.50"]%string.
Proof. vm_compute. reflexivity. Qed.

Example trim_examples :
  map trim [js "  ok "; js ""; [9; 10; 32; 160]%N; js " a b "]
  = [js "ok"; []; []; js "a b"].
Proof. vm_compute. reflexivity. Qed.

Example validatePaymentAmount_examples :
  map (fun s => Validation.validatePaymentAmount (Validation.AmountString (js s)))
      ["5.00"; "0.01"; "10000"; "abc"; "-1"; "0"; "10000.01"; "1.234"]%string
  = [None; None; None;
     Some (js "Payment amount must be a valid number");
     Some (js "Payment amount cannot be negative");
     Some (js "Payment amount must be greater than zero");
     Some (js "Payment amount cannot exceed $10,000 USDC");
     Some (js "Payment amount can have at most 2 decimal places")].
Proof. vm_compute. reflexivity. Qed.

(** *** Wallet addresses *)

Lemma address_regex_spec a : address_regex a = true <-> hex_address a.
Proof.
  unfold hex_address; split.
  - destruct a as [|c0 [|c1 body]]; simpl; try discriminate.
    rewrite !andb_true_iff, !N.eqb_eq, Nat.eqb_eq, forallb_forall.
    intros [[[-> ->] Hlen] Hall]. exists body. repeat split; auto.
    apply Forall_forall. intros c Hc. apply Hall. now apply list_elem_of_In.
  - intros (body & -> & Hlen & Hall). simpl.
    rewrite Hlen. simpl. apply forallb_forall. intros c Hc.
    rewrite Forall_forall in Hall. apply Hall. now apply list_elem_of_In.
Qed.

Lemma address_regex_shape a :
  address_regex a = true ->
  truthy a = true /\ starts_with (js "0x") a = true /\ length a = 42%nat.
Proof.
  destruct a as [|c0 [|c1 body]]; simpl; try discriminate.
  rewrite !andb_true_iff, !N.eqb_eq, Nat.eqb_eq.
  intros [[[-> ->] Hlen] _]. simpl. rewrite Hlen. auto.
Qed.

Lemma ext_validateWalletAddress_regex a :
  ExtensionValidation.validateWalletAddress a = None <-> address_regex a = true.
Proof.
  unfold ExtensionValidation.validateWalletAddress. split.
  - intros H.
    destruct (truthy a); cbn [negb] in H; [|discriminate H].
    destruct (starts_with (js "0x") a); cbn [negb] in H; [|discriminate H].
    destruct (Nat.eqb (length a) 42); cbn [negb] in H; [|discriminate H].
    destruct (address_regex a); cbn [negb] in H; [reflexivity|discriminate H].
  - intros H. destruct (address_regex_shape a H) as (Ht & Hs & Hl).
    rewrite Ht, Hs, Hl, H. simpl.
    destruct (existsb is_upper_hex (drop 2 a) && existsb is_lower_hex (drop 2 a));
      reflexivity.
Qed.

Lemma front_validateWalletAddress_regex a :
  Validation.validateWalletAddress a = None <-> address_regex a = true.
Proof.
  unfold Validation.validateWalletAddress. split.
  - intros H.
    destruct (truthy a); cbn [negb] in H; [|discriminate H].
    destruct (address_regex a); cbn [negb] in H; [reflexivity|discriminate H].
  - intros H. destruct (address_regex_shape a H) as (Ht & _).
    now rewrite Ht, H.
Qed.

Lemma is_hex_fold_case c : is_hex (fold_case c) = is_hex c.
Proof.
  unfold fold_case. destruct (is_upper_hex c) eqn:Hu; [|reflexivity].
  unfold is_hex. rewrite Hu. unfold is_upper_hex in Hu.
  apply andb_true_iff in Hu as [H1 H2].
  apply N.leb_le in H1. apply N.leb_le in H2.
  unfold is_lower_hex.
  replace ((97 <=? c + 32)%N) with true by (symmetry; apply N.leb_le; lia).
  replace ((c + 32 <=? 102)%N) with true by (symmetry; apply N.leb_le; lia).
  simpl. now rewrite orb_true_r.
Qed.

Lemma address_regex_fold_case body :
  address_regex (js "0x" ++ map fold_case body) = address_regex (js "0x" ++ body).
Proof.
  simpl. rewrite length_map. f_equal.
  induction body as [|c r IH]; simpl; auto.
  now rewrite is_hex_fold_case, IH.
Qed.

Lemma address_spellings :
  mixed_case address_spelling_1 = true /\
  mixed_case address_spelling_2 = true /\
  map fold_case address_spelling_1 = map fold_case address_spelling_2 /\
  address_spelling_1 <> address_spelling_2 /\
  address_regex address_spelling_1 = true /\
  address_regex address_spelling_2 = true.
Proof. repeat split; try (vm_compute; reflexivity). vm_compute. discriminate. Qed.

(** No checksum on letter case is enforced.  Whatever predicate [ok] plays
    the role of "the EIP-55 checksum is valid" (at most one mixed-case
    spelling per address), neither validator accepts only addresses that
    satisfy it. *)
Lemma no_case_checksum_enforced :
  ~ exists ok : jsstring -> Prop,
      case_checksum ok /\
      ((forall a, mixed_case a = true ->
                  ExtensionValidation.validateWalletAddress a = None -> ok a) \/
       (forall a, mixed_case a = true ->
                  Validation.validateWalletAddress a = None -> ok a)).
Proof.
  intros (ok & Hcs & Hacc).
  destruct address_spellings as (M1 & M2 & Hsame & Hne & R1 & R2).
  assert (A1 : ok address_spelling_1).
  { destruct Hacc as [H|H]; apply H; try assumption.
    - now apply ext_validateWalletAddress_regex.
    - now apply front_validateWalletAddress_regex. }
  assert (A2 : ok address_spelling_2).
  { destruct Hacc as [H|H]; apply H; try assumption.
    - now apply ext_validateWalletAddress_regex.
    - now apply front_validateWalletAddress_regex. }
  exact (Hne (Hcs _ _ M1 M2 Hsame A1 A2)).
Qed.

(** C4 (the code at the failing input): the two mixed-case spellings of
    one address, of which at most one can carry a valid EIP-55 checksum
    (the second has the case of its first letter flipped against the
    EIP-55 example), are both accepted by both [validateWalletAddress]
    functions: the checksum is not verified before acceptance. *)
Theorem validateWalletAddress_accepts_bad_checksum :
  mixed_case address_spelling_1 = true /\
  mixed_case address_spelling_2 = true /\
  map fold_case address_spelling_1 = map fold_case address_spelling_2 /\
  address_spelling_1 <> address_spelling_2 /\
  ExtensionValidation.validateWalletAddress address_spelling_1 = None /\
  ExtensionValidation.validateWalletAddress address_spelling_2 = None /\
  Validation.validateWalletAddress address_spelling_1 = None /\
  Validation.validateWalletAddress address_spelling_2 = None /\
  ~ exists ok : jsstring -> Prop,
      case_checksum ok /\
      ((forall a, mixed_case a = true ->
                  ExtensionValidation.validateWalletAddress a = None -> ok a) \/
       (forall a, mixed_case a = true ->
                  Validation.validateWalletAddress a = None -> ok a)).
Proof.
  destruct address_spellings as (M1 & M2 & Hsame & Hne & R1 & R2).
  repeat (split; [assumption || (vm_compute; reflexivity)|]).
  exact no_case_checksum_enforced.
Qed.

(** The format half of the address check: both [validateWalletAddress]
    functions return [null] exactly for the strings made of '0x' followed by
    exactly 40 hexadecimal characters, and the case of the letters plays no
    part in the verdict: lower-casing the hexadecimal letters of any input
    leaves the result unchanged. *)
Theorem validateWalletAddress_accepts_exactly_hex_addresses :
  (forall a, ExtensionValidation.validateWalletAddress a = None <-> hex_address a) /\
  (forall a, Validation.validateWalletAddress a = None <-> hex_address a) /\
  (forall body,
      ExtensionValidation.validateWalletAddress (js "0x" ++ map fold_case body)
      = ExtensionValidation.validateWalletAddress (js "0x" ++ body)) /\
  (forall body,
      Validation.validateWalletAddress (js "0x" ++ map fold_case body)
      = Validation.validateWalletAddress (js "0x" ++ body)).
Proof.
  split; [|split; [|split]].
  - intros a. rewrite ext_validateWalletAddress_regex. apply address_regex_spec.
  - intros a. rewrite front_validateWalletAddress_regex. apply address_regex_spec.
  - intros body. unfold ExtensionValidation.validateWalletAddress.
    rewrite address_regex_fold_case.
    change (truthy (js "0x" ++ map fold_case body)) with true.
    change (truthy (js "0x" ++ body)) with true.
    change (starts_with (js "0x") (js "0x" ++ map fold_case body)) with true.
    change (starts_with (js "0x") (js "0x" ++ body)) with true.
    replace (length (js "0x" ++ map fold_case body))
      with (length (js "0x" ++ body)) by (simpl; now rewrite length_map).
    cbn [negb].
    destruct (negb (Nat.eqb (length (js "0x" ++ body)) 42)); [reflexivity|].
    destruct (negb (address_regex (js "0x" ++ body))); [reflexivity|].
    repeat match goal with |- context [if ?b then None else None] =>
      destruct b end; reflexivity.
  - intros body. unfold Validation.validateWalletAddress.
    now rewrite address_regex_fold_case.
Qed.

(** *** The review panel: selection invariant and the two loops *)

Lemma find_assignment_In st a :
  In a (App.pendingAssignments st) ->
  is_Some (App.find_assignment st (App.assignment_id a)).
Proof.
  unfold App.find_assignment.
  induction (App.pendingAssignments st) as [|b l IH]; simpl; [tauto|].
  intros [->|H].
  - rewrite Z.eqb_refl. eauto.
  - destruct (App.assignment_id b =? App.assignment_id a); eauto.
Qed.

Lemma set_has_true x s : App.set_has x s = true <-> In x s.
Proof.
  unfold App.set_has. rewrite existsb_exists. split.
  - intros (y & Hy & E). apply Z.eqb_eq in E. now subst.
  - intros H. exists x. split; [assumption|apply Z.eqb_refl].
Qed.

Lemma set_add_In x y s : In y (App.set_add x s) -> y = x \/ In y s.
Proof.
  unfold App.set_add. destruct (App.set_has x s); [tauto|].
  rewrite in_app_iff. simpl. intuition.
Qed.

Lemma set_delete_In x y s : In y (App.set_delete x s) -> In y s.
Proof.
  unfold App.set_delete. intros H. apply list_elem_of_In in H.
  apply list_elem_of_filter in H as [_ H]. now apply list_elem_of_In.
Qed.

Lemma set_of_list_In l y : In y (App.set_of_list l) -> In y l.
Proof.
  unfold App.set_of_list.
  assert (G : forall acc, In y (fold_left (fun s x => App.set_add x s) l acc) ->
                          In y acc \/ In y l).
  { induction l as [|x l IH]; simpl; intros acc H; [tauto|].
    apply IH in H as [H|H]; [|tauto].
    apply set_add_In in H. intuition. }
  intros H. apply G in H as [[]|H]. exact H.
Qed.

Lemma selection_pending_same st st' :
  App.pendingAssignments st' = App.pendingAssignments st ->
  App.selectedAssignments st' = App.selectedAssignments st ->
  selection_invariant st -> selection_invariant st'.
Proof.
  unfold selection_invariant, selection_pending, App.find_assignment.
  intros -> ->. auto.
Qed.

Lemma loadPendingAssignments_invariant env st :
  selection_invariant (fst (App.loadPendingAssignments env st)).
Proof.
  unfold App.loadPendingAssignments.
  destruct (App.list_assignments env (js "submitted")); simpl.
  - intros _. constructor.
  - intros H. now destruct H.
Qed.

Lemma loadPendingAssignments_effects env st :
  snd (App.loadPendingAssignments env st) = [App.ListRequest (js "submitted")].
Proof.
  unfold App.loadPendingAssignments.
  now destruct (App.list_assignments env (js "submitted")).
Qed.

Lemma ui_step_invariant st st' :
  ui_step st st' -> selection_invariant st -> selection_invariant st'.
Proof.
  intros Hstep Inv. destruct Hstep.
  - (* toggle *)
    intros Hne. simpl in Hne. specialize (Inv Hne).
    unfold selection_pending, App.toggleAssignmentSelection in *. simpl.
    apply Forall_forall. intros i Hi. apply list_elem_of_In in Hi.
    rewrite Forall_forall in Inv.
    destruct (App.set_has (App.assignment_id a) (App.selectedAssignments st)).
    + apply set_delete_In in Hi. apply (Inv i). now apply list_elem_of_In.
    + apply set_add_In in Hi as [->|Hi].
      * now apply (find_assignment_In st a).
      * apply (Inv i). now apply list_elem_of_In.
  - (* select all *)
    intros Hne. unfold App.toggleSelectAll in *.
    destruct (Nat.eqb _ _); simpl in *; [constructor|].
    apply Forall_forall. intros i Hi. apply list_elem_of_In in Hi.
    apply set_of_list_In in Hi. apply in_map_iff in Hi as (a & <- & Ha).
    now apply (find_assignment_In st a).
  - apply loadPendingAssignments_invariant.
  - now apply (selection_pending_same st).
  - (* batch approve *)
    unfold App.handleBatchApprove.
    destruct (Nat.eqb _ _); [exact Inv|].
    destruct (negb _); [exact Inv|].
    destruct (App.approve_loop _ _ _ _ _) as [[sc ec] reqs].
    pose proof (loadPendingAssignments_invariant env
                  (App.setLoading false (App.setLoading true st))) as L.
    destruct (App.loadPendingAssignments _ _) as [st3 reload]. exact L.
  - (* single approve *)
    unfold App.handleApproveAssignment.
    destruct (from_option truthy false _); [now apply (selection_pending_same st)|].
    destruct (App.approve env i amount).
    + pose proof (loadPendingAssignments_invariant env (App.setLoading true st)) as L.
      destruct (App.loadPendingAssignments _ _) as [st2 reload].
      revert L. now apply selection_pending_same.
    + now apply (selection_pending_same st).
  - (* reject *)
    unfold App.handleRejectAssignment, App.assignmentsAPI_reject. cbn [fst snd].
    destruct (App.reject env i _).
    + pose proof (loadPendingAssignments_invariant env (App.setLoading true st)) as L.
      destruct (App.loadPendingAssignments _ _) as [st2 reload].
      revert L. now apply selection_pending_same.
    + now apply (selection_pending_same st).
  - now apply (selection_pending_same st).
Qed.

Lemma reachable_selection_invariant st : ui_reachable st -> selection_invariant st.
Proof.
  unfold ui_reachable. revert st. apply rtc_ind_r.
  - intros Hne. now destruct Hne.
  - intros st st' _ Hstep IH. now apply (ui_step_invariant st).
Qed.

(** With every selected id pending, the first loop adds up exactly the
    amounts the second loop sends. *)
Lemma totalPayment_fold st :
  selection_pending st ->
  App.totalPayment st
  = fold_left PrimFloat.add
      (map (App.paymentAmount st) (App.selectedAssignments st)) 0%float.
Proof.
  unfold App.totalPayment, selection_pending.
  generalize 0%float.
  induction (App.selectedAssignments st) as [|i l IH]; intros acc H; [reflexivity|].
  inversion H as [|? ? Hi Hl]; subst. simpl.
  rewrite IH by assumption. f_equal.
  unfold App.paymentAmount. destruct Hi as [a ->]. reflexivity.
Qed.

Lemma approve_loop_requests env st ids sc ec :
  App.approve_requests (snd (App.approve_loop env st ids sc ec))
  = map (fun i => (i, App.paymentAmount st i)) ids.
Proof.
  revert sc ec. induction ids as [|i l IH]; intros sc ec; [reflexivity|].
  simpl. destruct (App.approve env i (App.paymentAmount st i)) as [r|err].
  - specialize (IH (sc + 1) ec).
    destruct (App.approve_loop env st l (sc + 1) ec) as [[s1 e1] effs].
    simpl in *. now rewrite IH.
  - specialize (IH sc (ec + 1)).
    destruct (App.approve_loop env st l sc (ec + 1)) as [[s1 e1] effs].
    simpl in *. now rewrite IH.
Qed.

Lemma approve_loop_counts env st ids sc ec :
  fst (App.approve_loop env st ids sc ec)
  = (sc + Z.of_nat (length (filter (fun i => resolves env st i = true) ids)),
     ec + Z.of_nat (length (filter (fun i => resolves env st i = false) ids))).
Proof.
  revert sc ec. induction ids as [|i l IH]; intros sc ec.
  - simpl. f_equal; lia.
  - cbn [App.approve_loop].
    destruct (App.approve env i (App.paymentAmount st i)) as [r|err] eqn:E.
    + assert (R : resolves env st i = true) by (unfold resolves; now rewrite E).
      specialize (IH (sc + 1) ec).
      destruct (App.approve_loop env st l (sc + 1) ec) as [[s1 e1] effs].
      cbn [fst] in *. rewrite IH.
      rewrite filter_cons_True by exact R.
      rewrite filter_cons_False by (rewrite R; discriminate).
      cbn [length]. f_equal; lia.
    + assert (R : resolves env st i = false) by (unfold resolves; now rewrite E).
      specialize (IH sc (ec + 1)).
      destruct (App.approve_loop env st l sc (ec + 1)) as [[s1 e1] effs].
      cbn [fst] in *. rewrite IH.
      rewrite filter_cons_False by (rewrite R; discriminate).
      rewrite filter_cons_True by exact R.
      cbn [length]. f_equal; lia.
Qed.

Lemma approve_loop_setLoading env b st ids sc ec :
  App.approve_loop env (App.setLoading b st) ids sc ec
  = App.approve_loop env st ids sc ec.
Proof.
  revert sc ec. induction ids as [|i l IH]; intros sc ec; [reflexivity|].
  cbn [App.approve_loop].
  change (App.paymentAmount (App.setLoading b st) i) with (App.paymentAmount st i).
  destruct (App.approve env i (App.paymentAmount st i)); now rewrite IH.
Qed.

Lemma approve_loop_no_alerts env st ids sc ec :
  App.alerts (snd (App.approve_loop env st ids sc ec)) = [].
Proof.
  revert sc ec. induction ids as [|i l IH]; intros sc ec; [reflexivity|].
  cbn [App.approve_loop].
  destruct (App.approve env i (App.paymentAmount st i)) as [r|err].
  - specialize (IH (sc + 1) ec).
    destruct (App.approve_loop env st l (sc + 1) ec) as [[s1 e1] effs].
    exact IH.
  - specialize (IH sc (ec + 1)).
    destruct (App.approve_loop env st l sc (ec + 1)) as [[s1 e1] effs].
    exact IH.
Qed.

Lemma review_state_reachable ps l : l <> [] -> ui_reachable (review_state ps l).
Proof.
  intros Hl. unfold ui_reachable, review_state.
  eapply rtc_l; [apply (step_projects ps)|].
  eapply rtc_l; [apply (step_refresh (listing_env l approve_ok))|].
  apply rtc_once. apply step_select_all. exact Hl.
Qed.

Lemma batch_button_selection st :
  ui_reachable st -> batch_button_shown st -> selection_pending st.
Proof.
  intros R [Hp _]. now apply reachable_selection_invariant.
Qed.

Lemma paymentAmount_default st i :
  is_Some (App.find_assignment st i) -> default_amount st i (App.paymentAmount st i).
Proof.
  intros [a Ha]. exists a. split; [exact Ha|].
  unfold App.paymentAmount. rewrite Ha. unfold App.price_of.
  destruct (App.find_project st (App.task_of a)) as [[pid [s|]]|]; simpl; auto.
  destruct (truthy s); reflexivity.
Qed.

Lemma find_first_with {A : Type} (f : A -> bool) (P : A -> Prop) (l : list A) (x : A) :
  (forall y, f y = true <-> P y) ->
  List.find f l = Some x <-> first_with P l x.
Proof.
  intros Hf. split.
  - induction l as [|y l IH]; simpl; [discriminate|].
    destruct (f y) eqn:E.
    + intros [= <-]. exists [], l. split; [reflexivity|].
      split; [now apply Hf|constructor].
    + intros H. destruct (IH H) as (before & after & -> & Hx & Hb).
      exists (y :: before), after. split; [reflexivity|]. split; [assumption|].
      constructor; [|assumption]. intros Hy. apply Hf in Hy. congruence.
  - intros (before & after & -> & Hx & Hb).
    induction Hb as [|y before Hy _ IH]; simpl.
    + apply Hf in Hx. now rewrite Hx.
    + destruct (f y) eqn:E; [|exact IH]. apply Hf in E. contradiction.
Qed.

Lemma find_project_named st a :
  App.find_project st (App.task_of a)
  = match named_project a with
    | Some pid => List.find (fun p => Z.eqb (App.project_id p) pid) (App.projects st)
    | None => None
    end.
Proof.
  unfold App.find_project, App.task_of, named_project.
  destruct (App.task_data a) as [[[pid|]]|]; [reflexivity|reflexivity|].
  destruct (App.task a) as [[[pid|]]|]; reflexivity.
Qed.

(** The amount the second loop computes is the owning project's price, or
    5.00 when the project or its price is unknown. *)
Lemma paymentAmount_project_price st i :
  is_Some (App.find_assignment st i) ->
  project_price_or_5 st i (App.paymentAmount st i).
Proof.
  intros [a Ha]. exists a. split.
  { unfold App.find_assignment in Ha.
    apply (find_first_with _ (fun b => App.assignment_id b = i)) in Ha;
      [exact Ha|]. intros y. apply Z.eqb_eq. }
  unfold App.paymentAmount. rewrite Ha, find_project_named.
  assert (Hown : forall pid p,
             named_project a = Some pid ->
             (List.find (fun q => Z.eqb (App.project_id q) pid) (App.projects st)
              = Some p <-> owning_project st a p)).
  { intros pid p Hn.
    rewrite (find_first_with _ (fun q => App.project_id q = pid))
      by (intros y; apply Z.eqb_eq).
    unfold owning_project. rewrite Hn. split.
    - intros H. now exists pid.
    - intros (pid' & [= <-] & H). exact H. }
  destruct (named_project a) as [pid|] eqn:Hn.
  2: { right. split; [|reflexivity].
       intros price (p & (pid & Hp & _) & _). congruence. }
  destruct (List.find _ (App.projects st)) as [p|] eqn:Hp.
  2: { right. split; [|reflexivity].
       intros price (p & Ho & _). apply (Hown pid p eq_refl) in Ho. congruence. }
  assert (Hu : forall p', owning_project st a p' -> p' = p).
  { intros p' Ho. apply (Hown pid p' eq_refl) in Ho. congruence. }
  unfold App.price_of. destruct p as [ppid [price|]] eqn:Ep.
  - destruct (truthy price) eqn:Et.
    + left. exists price. split; [|reflexivity].
      exists p. subst p. split; [now apply (Hown pid)|]. split; [reflexivity|].
      intros ->. discriminate Et.
    + right. split; [|reflexivity].
      intros price' (p' & Ho & Hpr & Hne). apply Hu in Ho. subst p'.
      cbn in Hpr. injection Hpr as <-. now destruct price.
  - right. split; [|reflexivity].
    intros price' (p' & Ho & Hpr & _). apply Hu in Ho. subst p'. discriminate Hpr.
Qed.

Lemma handleBatchApprove_confirmed env st :
  App.selectedAssignments st <> [] ->
  App.window_confirm env (App.confirm_message st) = true ->
  exists sc ec reqs st3 reload,
    App.approve_loop env st (App.selectedAssignments st) 0 0 = (sc, ec, reqs) /\
    App.handleBatchApprove env st
    = (st3, App.Confirm (App.confirm_message st) :: reqs ++ reload
              ++ [App.Alert (App.result_message sc ec)]) /\
    reload = [App.ListRequest (js "submitted")].
Proof.
  intros Hsel Hc. unfold App.handleBatchApprove.
  destruct (App.selectedAssignments st) as [|i l] eqn:Es; [now destruct Hsel|].
  cbn [length Nat.eqb]. rewrite Hc. cbn [negb].
  change (App.selectedAssignments (App.setLoading true st)) with (App.selectedAssignments st).
  rewrite Es.
  rewrite approve_loop_setLoading.
  destruct (App.approve_loop env st (i :: l) 0 0) as [[sc ec] reqs].
  pose proof (loadPendingAssignments_effects env
                (App.setLoading false (App.setLoading true st))) as L.
  destruct (App.loadPendingAssignments _ _) as [st3 reload]. simpl in L.
  exists sc, ec, reqs, st3, reload. auto.
Qed.

Lemma approve_requests_batch q reqs m :
  App.approve_requests
    (App.Confirm q :: reqs ++ [App.ListRequest (js "submitted")] ++ [App.Alert m])
  = App.approve_requests reqs.
Proof.
  unfold App.approve_requests.
  change (App.Confirm q :: reqs ++ [App.ListRequest (js "submitted")] ++ [App.Alert m])
    with ([App.Confirm q] ++ reqs ++ [App.ListRequest (js "submitted")] ++ [App.Alert m]).
  rewrite !omap_app. simpl. apply app_nil_r.
Qed.

(** *** Payment amounts of a single approval *)

(** The single-approve handler sends the request only for an amount that
    [validatePaymentAmount] lets through; otherwise it shows the message
    and sends nothing. *)
Lemma handleApproveAssignment_validates env i amount st :
  match Validation.validatePaymentAmount (Validation.AmountNumber amount) with
  | None =>
      App.approve_requests (snd (App.handleApproveAssignment env i amount st))
      = [(i, amount)]
  | Some e =>
      truthy e = true /\
      App.handleApproveAssignment env i amount st = (App.setError e st, [])
  end.
Proof.
  unfold App.handleApproveAssignment.
  destruct (Validation.validatePaymentAmount _) as [e|] eqn:V; simpl.
  - assert (T : truthy e = true).
    { unfold Validation.validatePaymentAmount in V.
      repeat match type of V with
             | (if ?b then _ else _) = _ => destruct b
             end; inversion V; reflexivity. }
    now rewrite T.
  - destruct (App.approve env i amount) as [r|err]; [|reflexivity].
    pose proof (loadPendingAssignments_effects env (App.setLoading true st)) as L.
    destruct (App.loadPendingAssignments _ _) as [st2 reload].
    simpl in *. now rewrite L.
Qed.

(** C1 (the code at the failing input): the amount 0.0000001 is positive,
    below the maximum and has seven decimal places, but it prints as
    "1e-7", which holds no '.', so [validatePaymentAmount] returns [null]
    and [handleApproveAssignment] sends the approve request with it. *)
Theorem validatePaymentAmount_accepts_seven_decimals :
  toString tiny_amount = js "1e-7" /\
  decimal_places tiny_amount = 7 /\
  Validation.fraction_length tiny_amount = 0 /\
  Validation.validatePaymentAmount (Validation.AmountNumber tiny_amount) = None /\
  Validation.validatePaymentAmount (Validation.AmountString (js "0.0000001")) = None /\
  forall env i st,
    App.approve_requests (snd (App.handleApproveAssignment env i tiny_amount st))
    = [(i, tiny_amount)].
Proof.
  assert (V : Validation.validatePaymentAmount (Validation.AmountNumber tiny_amount) = None)
    by (vm_compute; reflexivity).
  repeat split; try (vm_compute; reflexivity).
  intros env i st.
  pose proof (handleApproveAssignment_validates env i tiny_amount st) as H.
  now rewrite V in H.
Qed.

(** *** Batch approval: amounts, total and report *)

(** C10, counterexample: with one assignment of a project priced 0.001
    selected, [handleBatchApprove] sends the amount 0.001 while the
    confirmation shown beforehand reads "$0.00": the total shown is not the
    sum of the amounts sent. *)
Lemma batch_confirmation_rounds :
  ui_reachable milli_review /\ batch_button_shown milli_review /\
  App.approve_requests
    (snd (App.handleBatchApprove (listing_env [] approve_ok) milli_review))
  = [(11, parseFloat (js "0.001"))] /\
  head (snd (App.handleBatchApprove (listing_env [] approve_ok) milli_review))
  = Some (App.Confirm (js "Approve 1 assignment(s) for a total of $0.00 USDC?")) /\
  parseFloat (js "0.00")
  <> fold_left PrimFloat.add [parseFloat (js "0.001")] 0%float.
Proof.
  split; [apply review_state_reachable; discriminate|].
  split; [split; discriminate|].
  split; [vm_compute; reflexivity|]. split; [vm_compute; reflexivity|].
  intros H.
  assert (E : toString (parseFloat (js "0.00"))
              = toString (fold_left PrimFloat.add [parseFloat (js "0.001")] 0%float))
    by now rewrite H.
  vm_compute in E. discriminate E.
Qed.

(** C10 (amended): for every state of the review panel in which "Approve
    Selected" can be pressed, and once the researcher confirms,
    [handleBatchApprove] sends one approve request per selected assignment,
    in selection order and unfiltered by any validation, each with the
    amount due for that assignment: the number that the [price_per_task] of
    its owning project denotes, or 5.00 when the project or its price is
    unknown; the total shown in the confirmation is the left-to-right
    binary64 sum of the amounts sent, rounded to two decimals by
    [toFixed(2)]. *)
Theorem handleBatchApprove_sends_default_amounts env st :
  ui_reachable st -> batch_button_shown st ->
  App.window_confirm env (App.confirm_message st) = true ->
  let effs := snd (App.handleBatchApprove env st) in
  App.approve_requests effs
  = map (fun i => (i, App.paymentAmount st i)) (App.selectedAssignments st) /\
  Forall (fun r => project_price_or_5 st (fst r) (snd r)) (App.approve_requests effs) /\
  head effs
  = Some (App.Confirm
            (js "Approve "
               ++ decimal_digits (Z.of_nat (length (App.selectedAssignments st)))
               ++ js " assignment(s) for a total of $"
               ++ toFixed 2 (fold_left PrimFloat.add
                               (map snd (App.approve_requests effs)) 0%float)
               ++ js " USDC?")).
Proof.
  intros R B Hc.
  pose proof (batch_button_selection st R B) as Sel.
  destruct B as [_ Hsel].
  destruct (handleBatchApprove_confirmed env st Hsel Hc)
    as (sc & ec & reqs & st3 & reload & Hloop & -> & ->).
  cbn [snd]. cbv zeta.
  rewrite approve_requests_batch.
  pose proof (approve_loop_requests env st (App.selectedAssignments st) 0 0) as Hr.
  rewrite Hloop in Hr. cbn [snd] in Hr. rewrite Hr.
  split; [reflexivity|split].
  - apply Forall_forall. intros [i amount] Hin.
    apply list_elem_of_In, in_map_iff in Hin as (j & [= <- <-] & Hj).
    apply paymentAmount_project_price.
    unfold selection_pending in Sel. rewrite Forall_forall in Sel.
    apply Sel. now apply list_elem_of_In.
  - cbn [head]. do 2 f_equal. unfold App.confirm_message.
    rewrite (totalPayment_fold st Sel). rewrite map_map. cbn [snd].
    reflexivity.
Qed.

Lemma handleBatchApprove_sends_default_amounts_witness :
  ui_reachable mixed_review /\ batch_button_shown mixed_review /\
  App.window_confirm (listing_env [] approve_ok) (App.confirm_message mixed_review) = true /\
  (let effs := snd (App.handleBatchApprove (listing_env [] approve_ok) mixed_review) in
   App.approve_requests effs
   = [(11, 2.5%float); (12, 20000%float); (13, 5%float); (14, 5%float)] /\
   head effs
   = Some (App.Confirm (js "Approve 4 assignment(s) for a total of $20012.50 USDC?"))) /\
  Validation.validatePaymentAmount (Validation.AmountNumber 20000%float)
  = Some (js "Payment amount cannot exceed $10,000 USDC").
Proof.
  assert (R : ui_reachable mixed_review) by (apply review_state_reachable; discriminate).
  assert (B : batch_button_shown mixed_review) by (split; discriminate).
  split; [exact R|split; [exact B|split; [reflexivity|split; [|vm_compute; reflexivity]]]].
  destruct (handleBatchApprove_sends_default_amounts
              (listing_env [] approve_ok) mixed_review R B eq_refl) as (H1 & _ & H3).
  cbv zeta. rewrite H3, H1. split; vm_compute; reflexivity.
Defined.

(** C7, counterexample: with the prices 0.10 and 0.20 selected, the total
    that [handleBatchApprove] computes is not the decimal 0.30: it is the
    binary64 number that prints as 0.30000000000000004 (seventeen decimal
    places), the result of one rounded floating-point addition. *)
Lemma batch_total_drifts :
  ui_reachable dimes_review /\
  map (App.paymentAmount dimes_review) (App.selectedAssignments dimes_review)
  = [parseFloat (js "0.10"); parseFloat (js "0.20")] /\
  toString (App.totalPayment dimes_review) = js "0.30000000000000004" /\
  decimal_places (App.totalPayment dimes_review) = 17 /\
  App.totalPayment dimes_review <> parseFloat (js "0.30").
Proof.
  split; [apply review_state_reachable; discriminate|].
  repeat split; try (vm_compute; reflexivity).
  intros H.
  assert (E : toString (App.totalPayment dimes_review) = toString (parseFloat (js "0.30")))
    by now rewrite H.
  vm_compute in E. discriminate E.
Qed.

(** C7 (amended): the amounts are IEEE-754 binary64 numbers.  In every
    state of the review panel in which "Approve Selected" can be pressed,
    the total computed before approval is the left-to-right binary64 sum,
    starting from 0, of the per-assignment amounts, each of which is
    [parseFloat] of the project's price string or the literal 5.00; the
    confirmation shows that sum rounded to two decimals by [toFixed(2)]. *)
Theorem batch_total_is_binary64_sum st :
  ui_reachable st -> batch_button_shown st ->
  App.totalPayment st
  = fold_left PrimFloat.add
      (map (App.paymentAmount st) (App.selectedAssignments st)) 0%float /\
  Forall (fun i => default_amount st i (App.paymentAmount st i))
         (App.selectedAssignments st) /\
  App.confirm_message st
  = js "Approve " ++ decimal_digits (Z.of_nat (length (App.selectedAssignments st)))
      ++ js " assignment(s) for a total of $"
      ++ toFixed 2 (fold_left PrimFloat.add
                      (map (App.paymentAmount st) (App.selectedAssignments st))
                      0%float)
      ++ js " USDC?".
Proof.
  intros R B. pose proof (batch_button_selection st R B) as Sel.
  split; [now apply totalPayment_fold|split].
  - unfold selection_pending in Sel.
    eapply Forall_impl; [exact Sel|]. intros i Hi.
    now apply paymentAmount_default.
  - unfold App.confirm_message. now rewrite (totalPayment_fold st Sel).
Qed.

Lemma batch_total_is_binary64_sum_witness :
  ui_reachable dimes_review /\ batch_button_shown dimes_review /\
  App.totalPayment dimes_review
  = PrimFloat.add (PrimFloat.add 0%float (parseFloat (js "0.10")))
                  (parseFloat (js "0.20")) /\
  App.confirm_message dimes_review
  = js "Approve 2 assignment(s) for a total of $0.30 USDC?".
Proof.
  assert (R : ui_reachable dimes_review) by (apply review_state_reachable; discriminate).
  assert (B : batch_button_shown dimes_review) by (split; discriminate).
  split; [exact R|split; [exact B|]].
  destruct (batch_total_is_binary64_sum dimes_review R B) as (H1 & _ & H3).
  rewrite H1, H3. split; vm_compute; reflexivity.
Defined.

(** What the batch handler announces is the number of requests that
    resolved and the number that were rejected, nothing more. *)
Lemma handleBatchApprove_announces_counts env st :
  App.selectedAssignments st <> [] ->
  App.window_confirm env (App.confirm_message st) = true ->
  App.alerts (snd (App.handleBatchApprove env st))
  = [App.result_message
       (Z.of_nat (length (filter (fun i => resolves env st i = true)
                                 (App.selectedAssignments st))))
       (Z.of_nat (length (filter (fun i => resolves env st i = false)
                                 (App.selectedAssignments st))))].
Proof.
  intros Hsel Hc.
  destruct (handleBatchApprove_confirmed env st Hsel Hc)
    as (sc & ec & reqs & st3 & reload & Hloop & -> & ->).
  pose proof (approve_loop_counts env st (App.selectedAssignments st) 0 0) as Hn.
  pose proof (approve_loop_no_alerts env st (App.selectedAssignments st) 0 0) as Ha.
  rewrite Hloop in Hn, Ha. cbn [fst snd] in Hn, Ha.
  rewrite !Z.add_0_l in Hn. injection Hn as Hs He.
  cbn [snd]. unfold App.alerts in *.
  change (App.Confirm (App.confirm_message st)
            :: reqs ++ [App.ListRequest (js "submitted")]
                 ++ [App.Alert (App.result_message sc ec)])
    with ([App.Confirm (App.confirm_message st)]
            ++ reqs ++ [App.ListRequest (js "submitted")]
                 ++ [App.Alert (App.result_message sc ec)]).
  rewrite !omap_app, Ha, Hs, He. reflexivity.
Qed.

(** C3 (the code at the failing input): one selected assignment whose
    approval fails with the reason "Insufficient USDC balance".  The batch
    handler announces "Approved 0 assignment(s). Failed: 1": the reason is
    in no alert, only in the console; the single-approve handler on the
    same failure puts the reason in the error banner. *)
Theorem handleBatchApprove_hides_failure_reason :
  let env := listing_env [pending 11 (Some 1)] approve_fails in
  ui_reachable one_review /\
  App.alerts (snd (App.handleBatchApprove env one_review))
  = [js "Approved 0 assignment(s). Failed: 1"] /\
  Forall (fun m => includes settlement_reason m = false)
         (App.alerts (snd (App.handleBatchApprove env one_review))) /\
  In (App.ConsoleError 11 {| App.response_data_error := Some settlement_reason |})
     (snd (App.handleBatchApprove env one_review)) /\
  App.error (fst (App.handleApproveAssignment env 11 5%float one_review))
  = settlement_reason.
Proof.
  cbv zeta. split; [apply review_state_reachable; discriminate|].
  split; [vm_compute; reflexivity|].
  split; [|split; [|vm_compute; reflexivity]].
  - apply Forall_forall. intros m Hm. vm_compute in Hm.
    apply list_elem_of_In in Hm. destruct Hm as [<-|[]]. vm_compute. reflexivity.
  - vm_compute. right. right. left. reflexivity.
Qed.

(** *** Login *)

Lemma annotator_login_dec request : annotator_login request \/ ~ annotator_login request.
Proof.
  destruct request as [data|e].
  - destruct (Auth.user data) as [u|] eqn:Eu.
    + destruct (decide (Auth.user_type u = js "annotator")) as [Ha|Ha].
      * left. exists data, u. auto.
      * right. intros (d & u' & [= <-] & Hu & Ht). congruence.
    + right. intros (d & u' & [= <-] & Hu & _). congruence.
  - right. intros (d & u' & Hr & _). discriminate Hr.
Qed.

(** The other direction: an annotator's login writes both entries and
    returns the user. *)
Lemma login_annotator_stores data u st :
  Auth.user data = Some u -> Auth.user_type u = js "annotator" ->
  Auth.login (Resolved data) st
  = (inr u, Auth.storage_set "user" (Some (Auth.VUser u))
              (Auth.storage_set "authToken" (Auth.VString <$> Auth.token data) st)).
Proof.
  intros Hu Ht. unfold Auth.login. rewrite Hu, Ht.
  unfold jsstring_eqb. now rewrite bool_decide_eq_true_2.
Qed.

(** C9: for every login response whose user is not an annotator (and for
    every failed request), [AuthManager.login] throws with the storage
    exactly as it was: neither [authToken] nor [user] is written and
    [isAuthenticated] keeps its value, so it remains false; conversely the
    storage changes only when the user is an annotator, and then
    [authToken] and [user] are the values written. *)
Theorem login_stores_only_for_annotators request st :
  ~ annotator_login request ->
  (exists thrown, Auth.login request st = (inl thrown, st)) /\
  Auth.isAuthenticated (snd (Auth.login request st)) = Auth.isAuthenticated st /\
  (Auth.isAuthenticated st = false ->
   Auth.isAuthenticated (snd (Auth.login request st)) = false) /\
  (forall request', snd (Auth.login request' st) <> st -> annotator_login request').
Proof.
  intros Hna.
  assert (G : forall r, ~ annotator_login r ->
                        exists thrown, Auth.login r st = (inl thrown, st)).
  { intros r Hr. unfold Auth.login.
    destruct r as [data|e]; [|eauto].
    destruct (Auth.user data) as [u|] eqn:Eu; [|eauto].
    unfold jsstring_eqb. destruct (bool_decide_reflect (Auth.user_type u = js "annotator")) as [Ha|Ha].
    - exfalso. apply Hr. exists data, u. auto.
    - cbn [negb]. eauto. }
  destruct (G request Hna) as [thrown E].
  split; [eauto|]. rewrite E. cbn [snd].
  split; [reflexivity|split; [auto|]].
  intros r Hr.
  destruct (annotator_login_dec r) as [Ha|Ha]; [exact Ha|].
  destruct (G r Ha) as [t Et]. rewrite Et in Hr. now destruct Hr.
Qed.

Lemma login_stores_only_for_annotators_witness :
  ~ annotator_login researcher_login /\
  (exists thrown, Auth.login researcher_login ∅ = (inl thrown, ∅)) /\
  Auth.isAuthenticated (snd (Auth.login researcher_login ∅)) = Auth.isAuthenticated ∅ /\
  (Auth.isAuthenticated ∅ = false ->
   Auth.isAuthenticated (snd (Auth.login researcher_login ∅)) = false) /\
  (forall request', snd (Auth.login request' ∅) <> ∅ -> annotator_login request').
Proof.
  assert (H : ~ annotator_login researcher_login).
  { intros (d & u & [= <-] & [= <-] & Ht). vm_compute in Ht. discriminate Ht. }
  split; [exact H|].
  exact (login_stores_only_for_annotators researcher_login ∅ H).
Defined.

(** *** Claim errors *)

(** C5: for every claim attempt that is rejected with HTTP status 400,
    [handleClaimTask] shows exactly one error message, 'This task is no
    longer available. Please refresh and try another task.', and shows no
    message of the generic form 'Failed to claim task: ...'. *)
Theorem handleClaimTask_lost_race env taskId error :
  TaskPanel.claimTask env taskId = Rejected error ->
  TaskPanel.response_status error = Some 400 ->
  TaskPanel.error_messages (fst (TaskPanel.handleClaimTask env taskId))
  = [js "This task is no longer available. Please refresh and try another task."] /\
  Forall (fun m => starts_with (js "Failed to claim task") m = false)
         (TaskPanel.error_messages (fst (TaskPanel.handleClaimTask env taskId))).
Proof.
  intros Hc Hs. unfold TaskPanel.handleClaimTask. rewrite Hc.
  unfold TaskPanel.handle_claim_error, TaskPanel.claim_error_message.
  rewrite Hs. cbn [fst TaskPanel.error_messages omap].
  split; [reflexivity|].
  repeat constructor.
Qed.

Lemma handleClaimTask_lost_race_witness :
  TaskPanel.response_status
    {| TaskPanel.response_status := Some 400;
       TaskPanel.message := js "Request failed with status code 400" |} = Some 400 /\
  TaskPanel.handleClaimTask lost_race_env 7
  = ([TaskPanel.ClaimTaskCall 7;
      TaskPanel.ShowErrorMessage
        (js "This task is no longer available. Please refresh and try another task.");
      TaskPanel.RefreshCall], Resolved tt) /\
  TaskPanel.error_messages (fst (TaskPanel.handleClaimTask lost_race_env 7))
  = [js "This task is no longer available. Please refresh and try another task."] /\
  Forall (fun m => starts_with (js "Failed to claim task") m = false)
         (TaskPanel.error_messages (fst (TaskPanel.handleClaimTask lost_race_env 7))).
Proof.
  split; [reflexivity|split; [reflexivity|]].
  exact (handleClaimTask_lost_race lost_race_env 7 _ eq_refl eq_refl).
Defined.

(** *** Assignment cards *)

Lemma working_status_test status :
  existsb (jsstring_eqb status) [js "assigned"; js "accepted"; js "in_progress"] = true
  <-> working_status status.
Proof.
  unfold working_status, jsstring_eqb. cbn [existsb].
  rewrite !orb_true_iff, !bool_decide_eq_true. intuition discriminate.
Qed.

Lemma isInProgress_test status :
  Card.status_is "assigned" status || Card.status_is "accepted" status
  || Card.status_is "in_progress" status = true
  <-> working_status status.
Proof.
  unfold working_status, Card.status_is, jsstring_eqb.
  rewrite !orb_true_iff, !bool_decide_eq_true. tauto.
Qed.

(** C6: for every assignment and whatever form [renderAnnotationForm]
    builds, the card rendered by [renderAssignmentCard] offers a cancel
    control if and only if the status is one of assigned, accepted,
    in_progress, and then it is the cancel control of this very assignment;
    it embeds an annotation form under exactly the same condition, and then
    it is the form that [renderAnnotationForm] built for this assignment; a
    card of any other status, so one whose status is submitted, approved or
    rejected, holds no cancel control and no form at all. *)
Theorem renderAssignmentCard_controls renderAnnotationForm assignment :
  let card := Card.renderAssignmentCard renderAnnotationForm assignment in
  (forall i, Card.offers_cancel i card <->
             i = Card.id assignment /\ working_status (Card.status assignment)) /\
  (forall i form, Card.offers_form i form card <->
                  i = Card.id assignment /\
                  form = renderAnnotationForm assignment /\
                  working_status (Card.status assignment)) /\
  (~ working_status (Card.status assignment) ->
   Card.cancel_slot card = None /\ Card.form_slot card = None) /\
  (Card.status assignment = js "submitted" \/
   Card.status assignment = js "approved" \/
   Card.status assignment = js "rejected" ->
   Card.cancel_slot card = None /\ Card.form_slot card = None).
Proof.
  cbv zeta.
  pose proof (working_status_test (Card.status assignment)) as H1.
  pose proof (isInProgress_test (Card.status assignment)) as H2.
  assert (S : (working_status (Card.status assignment) /\
               Card.cancel_slot (Card.renderAssignmentCard renderAnnotationForm assignment)
               = Some (Card.CancelButton (Card.id assignment)) /\
               Card.form_slot (Card.renderAssignmentCard renderAnnotationForm assignment)
               = Some (Card.AnnotationForm (Card.id assignment)
                         (renderAnnotationForm assignment))) \/
              (~ working_status (Card.status assignment) /\
               Card.cancel_slot (Card.renderAssignmentCard renderAnnotationForm assignment)
               = None /\
               Card.form_slot (Card.renderAssignmentCard renderAnnotationForm assignment)
               = None)).
  { unfold Card.renderAssignmentCard.
    destruct (existsb _ _); destruct (_ || _ || _);
      cbn [Card.cancel_slot Card.form_slot].
    - left. split; [now apply H1|split; reflexivity].
    - assert (W : working_status (Card.status assignment)) by now apply H1.
      apply H2 in W. discriminate W.
    - assert (W : working_status (Card.status assignment)) by now apply H2.
      apply H1 in W. discriminate W.
    - right. split; [|split; reflexivity].
      intros W. apply H1 in W. discriminate W. }
  assert (T : Card.status assignment = js "submitted" \/
              Card.status assignment = js "approved" \/
              Card.status assignment = js "rejected" ->
              ~ working_status (Card.status assignment)).
  { unfold working_status. intros H W.
    destruct H as [H|[H|H]]; rewrite H in W;
      destruct W as [W|[W|W]]; vm_compute in W; discriminate W. }
  unfold Card.offers_cancel, Card.offers_form.
  destruct S as [(W & C & F)|(W & C & F)]; rewrite C, F.
  - split; [|split; [|split]].
    + intros i. split.
      * intros [= <-]. auto.
      * intros [-> _]. reflexivity.
    + intros i form. split.
      * intros [= <- <-]. auto.
      * intros (-> & -> & _). reflexivity.
    + intros N. now destruct N.
    + intros H. now destruct (T H).
  - split; [|split; [|split]].
    + intros i. split; [discriminate|]. intros [_ H]. now destruct W.
    + intros i form. split; [discriminate|]. intros (_ & _ & H). now destruct W.
    + auto.
    + auto.
Qed.

(** *** The claim guard *)

Lemma spaced_bound l t0 t :
  spaced l -> last l = Some t0 -> In t l -> t <= t0.
Proof.
  intros Hs Hl Hin. apply list_elem_of_In, list_elem_of_lookup in Hin as [i Hi].
  rewrite last_lookup in Hl.
  destruct (decide (i = pred (length l))) as [->|Hne].
  - rewrite Hi in Hl. injection Hl as ->. lia.
  - pose proof (lookup_lt_Some _ _ _ Hi).
    specialize (Hs i (pred (length l)) t t0 Hi Hl). lia.
Qed.

Lemma spaced_snoc l x :
  spaced l -> (forall t, In t l -> t + 3000 <= x) -> spaced (l ++ [x]).
Proof.
  intros Hs Hx i j ti tj Hi Hj Hij.
  pose proof (lookup_lt_Some _ _ _ Hj) as Hlen. rewrite length_app in Hlen.
  simpl in Hlen.
  destruct (decide (j < length l)%nat) as [Hj'|Hj'].
  - rewrite lookup_app_l in Hi, Hj by lia. eauto.
  - assert (j = length l) as -> by lia.
    rewrite lookup_app_l in Hi by lia.
    rewrite lookup_app_r, Nat.sub_diag in Hj by lia. injection Hj as <-.
    apply Hx. apply list_elem_of_In. eapply list_elem_of_lookup_2. exact Hi.
Qed.

Lemma reset_times_remove_reset t l :
  In t l -> Webview.is_reset (snd t) = true ->
  S (length (filter (fun p => Webview.is_reset (snd p) = true) (Webview.remove_timer t l)))
  = length (filter (fun p => Webview.is_reset (snd p) = true) l).
Proof.
  intros Hin Hr. induction l as [|x r IH]; [destruct Hin|].
  cbn [Webview.remove_timer]. destruct (decide (x = t)) as [->|Hne].
  - now rewrite filter_cons_True.
  - destruct Hin as [E|Hin]; [congruence|].
    destruct (Webview.is_reset (snd x)) eqn:Ex.
    + rewrite !filter_cons_True by assumption. cbn [length]. now rewrite IH.
    + rewrite !filter_cons_False by (rewrite Ex; discriminate). now apply IH.
Qed.

Lemma reset_times_remove_other t l :
  Webview.is_reset (snd t) = false ->
  filter (fun p => Webview.is_reset (snd p) = true) (Webview.remove_timer t l)
  = filter (fun p => Webview.is_reset (snd p) = true) l.
Proof.
  intros Hr. induction l as [|x r IH]; [reflexivity|].
  cbn [Webview.remove_timer]. destruct (decide (x = t)) as [->|Hne].
  - now rewrite filter_cons_False by (rewrite Hr; discriminate).
  - destruct (Webview.is_reset (snd x)) eqn:Ex.
    + rewrite !filter_cons_True by assumption. now rewrite IH.
    + now rewrite !filter_cons_False by (rewrite Ex; discriminate).
Qed.

(** Posting a claim: the flag was clear. *)
Lemma guard_invariant_claim s m :
  guard_invariant s -> Webview.isClaimingTask s = false ->
  Webview.is_claim m = true ->
  forall d,
  guard_invariant
    {| Webview.now := Webview.now s;
       Webview.isClaimingTask := true;
       Webview.timers := Webview.timers s ++ [(Webview.now s + 3000, Webview.ResetClaiming)];
       Webview.posted := Webview.posted s ++ [(Webview.now s, m)];
       Webview.dom := d |}.
Proof.
  intros [Hs Hl] Hf Hm d. unfold guard_invariant, Webview.claim_times, Webview.reset_times in *.
  cbn [Webview.posted Webview.timers Webview.now Webview.isClaimingTask].
  rewrite !filter_app, !map_app.
  rewrite (filter_cons_True _ (Webview.now s, m)) by exact Hm.
  rewrite (filter_cons_True _ (Webview.now s + 3000, Webview.ResetClaiming)) by reflexivity.
  rewrite !filter_nil. cbn [map fst]. rewrite last_snoc.
  rewrite Hf in Hl.
  split.
  - apply spaced_snoc; [exact Hs|]. intros t Ht.
    destruct (last _) as [t0|] eqn:El.
    + destruct Hl as (_ & _ & Hold).
      pose proof (spaced_bound _ t0 t Hs El Ht). lia.
    + apply last_None in El. rewrite El in Ht. destruct Ht.
  - split; [lia|].
    destruct (last _) as [t0|]; [destruct Hl as (_ & -> & _)|destruct Hl as (_ & ->)];
      reflexivity.
Qed.

(** Posting a message that is no claim. *)
Lemma guard_invariant_post s m :
  Webview.is_claim m = false -> guard_invariant s -> guard_invariant (Webview.post m s).
Proof.
  intros Hm Inv.
  unfold guard_invariant, Webview.claim_times, Webview.reset_times, Webview.post in *.
  cbn [Webview.posted Webview.timers Webview.now Webview.isClaimingTask].
  rewrite filter_app, filter_cons_False by (cbn [snd]; rewrite Hm; discriminate).
  rewrite filter_nil, app_nil_r. exact Inv.
Qed.

(** Showing an error note: its removal is no flag reset. *)
Lemma guard_invariant_show_error s i text :
  guard_invariant s -> guard_invariant (Webview.show_error i text s).
Proof.
  intros Inv.
  unfold guard_invariant, Webview.claim_times, Webview.reset_times, Webview.show_error in *.
  cbn [Webview.posted Webview.timers Webview.now Webview.isClaimingTask].
  rewrite filter_app, filter_cons_False by discriminate.
  rewrite filter_nil, app_nil_r. exact Inv.
Qed.

Lemma step_guard_invariant JSON_parses s s' :
  Webview.step JSON_parses s s' -> guard_invariant s -> guard_invariant s'.
Proof.
  intros Hstep Inv.
  destruct Hstep as [taskId s|projectId s|assignmentId s|m s Hm|assignmentId text s
                    |t s Ht|t s Hin Hdue|d s].
  - unfold Webview.claimTask. destruct (Webview.isClaimingTask s) eqn:Hf; [exact Inv|].
    now apply guard_invariant_claim.
  - unfold Webview.claimTaskFromProject.
    destruct (Webview.isClaimingTask s) eqn:Hf; [exact Inv|].
    now apply guard_invariant_claim.
  - unfold Webview.submitGenericAnnotation.
    destruct (negb _); [destruct (bool_decide _); [|exact Inv]|].
    + now apply guard_invariant_show_error.
    + now apply guard_invariant_post.
  - now apply guard_invariant_post.
  - now apply guard_invariant_show_error.
  - destruct Inv as [Hs Hl]. split; [exact Hs|].
    unfold Webview.claim_times, Webview.reset_times in *.
    cbn [Webview.wait_until Webview.posted Webview.timers Webview.now Webview.isClaimingTask].
    destruct (last _) as [t0|]; [|exact Hl].
    destruct Hl as [H0 Hl]. split; [lia|].
    destruct (Webview.isClaimingTask s); [exact Hl|]. destruct Hl. split; [assumption|lia].
  - destruct Inv as [Hs Hl]. split; [destruct t as [due []]; exact Hs|].
    destruct t as [due [|n]]; unfold Webview.run_timer; cbn [snd];
      unfold Webview.claim_times, Webview.reset_times in *;
      cbn [Webview.posted Webview.timers Webview.now Webview.isClaimingTask].
    + (* the flag reset fires *)
      pose proof (reset_times_remove_reset _ _ Hin eq_refl) as Hlen.
      assert (Hmem : In due (map fst (filter (fun p => Webview.is_reset (snd p) = true)
                                             (Webview.timers s)))).
      { apply in_map_iff. exists (due, Webview.ResetClaiming). split; [reflexivity|].
        apply list_elem_of_In, list_elem_of_filter. split; [reflexivity|].
        now apply list_elem_of_In. }
      destruct (last _) as [t0|].
      * destruct Hl as [H0 Hl]. split; [exact H0|].
        destruct (Webview.isClaimingTask s).
        -- rewrite Hl in Hmem. destruct Hmem as [<-|[]].
           apply (f_equal length) in Hl. rewrite length_map in Hl.
           cbn [length] in Hl. rewrite Hl in Hlen. injection Hlen as Hlen.
           cbn [fst] in Hdue. split; [|exact Hdue].
           destruct (filter _ (Webview.remove_timer _ _)); [reflexivity|discriminate Hlen].
        -- destruct Hl as [Hl _]. rewrite Hl in Hmem. destruct Hmem.
      * destruct Hl as [_ Hl]. rewrite Hl in Hmem. destruct Hmem.
    + (* an error note is removed *)
      rewrite reset_times_remove_other by reflexivity. exact Hl.
  - exact Inv.
Qed.

Lemma reachable_guard_invariant JSON_parses s :
  Webview.reachable JSON_parses s -> guard_invariant s.
Proof.
  intros [d H]. revert s H. apply rtc_ind_r.
  - split; [intros i j ti tj Hi; discriminate Hi|]. cbn. auto.
  - intros s s' _ Hstep IH. now apply (step_guard_invariant JSON_parses s).
Qed.

(** C8: in every state the webview can reach, (a) while [isClaimingTask]
    is set, [claimTask] and [claimTaskFromProject] return at once: they
    post nothing and change nothing; (b) the flag set by a claim posted at
    time [t0] stays set at every time before [t0 + 3000], the only pending
    reset being the timeout due at [t0 + 3000]; (c) hence any two claim
    messages posted to the extension are at least 3000 ms apart. *)
Theorem claim_guard_blocks_duplicates JSON_parses s :
  Webview.reachable JSON_parses s ->
  (Webview.isClaimingTask s = true ->
   forall n, Webview.claimTask n s = s /\ Webview.claimTaskFromProject n s = s) /\
  (forall t0, last (Webview.claim_times s) = Some t0 ->
     t0 <= Webview.now s /\
     (Webview.now s < t0 + 3000 -> Webview.isClaimingTask s = true) /\
     (Webview.isClaimingTask s = true -> Webview.reset_times s = [t0 + 3000])) /\
  spaced (Webview.claim_times s).
Proof.
  intros R. destruct (reachable_guard_invariant JSON_parses s R) as [Hs Hl].
  split; [|split; [|exact Hs]].
  - intros Hf n. unfold Webview.claimTask, Webview.claimTaskFromProject.
    now rewrite Hf.
  - intros t0 Ht0. rewrite Ht0 in Hl. destruct Hl as [H0 Hl].
    split; [exact H0|].
    destruct (Webview.isClaimingTask s); split; auto.
    + destruct Hl as [_ Hl]. lia.
    + discriminate.
Qed.

Lemma run_6_reachable : Webview.reachable (fun _ => false) run_6.
Proof.
  exists one_button.
  eapply rtc_l; [apply (Webview.step_claimTask _ 1)|]. fold run_1.
  eapply rtc_l; [apply (Webview.step_wait _ 1000); vm_compute; discriminate|]. fold run_2.
  eapply rtc_l; [apply (Webview.step_claimTask _ 2)|]. fold run_3.
  eapply rtc_l; [apply (Webview.step_wait _ 3000); vm_compute; discriminate|]. fold run_4.
  eapply rtc_l;
    [apply (Webview.step_timer _ (3000, Webview.ResetClaiming));
     [left; reflexivity|vm_compute; discriminate]|]. fold run_5.
  apply rtc_once. apply (Webview.step_claimTaskFromProject _ 3).
Defined.

Lemma claim_guard_blocks_duplicates_witness :
  Webview.reachable (fun _ => false) run_6 /\
  Webview.posted run_6
  = [(0, Webview.ClaimTask 1); (3000, Webview.ClaimTaskFromProject 3)] /\
  Webview.posted run_3 = Webview.posted run_1 /\
  (forall n, Webview.claimTask n run_6 = run_6 /\
             Webview.claimTaskFromProject n run_6 = run_6) /\
  spaced (Webview.claim_times run_6).
Proof.
  split; [exact run_6_reachable|].
  split; [reflexivity|split; [reflexivity|]].
  destruct (claim_guard_blocks_duplicates (fun _ => false) run_6 run_6_reachable)
    as (A & _ & C).
  split; [exact (A eq_refl)|exact C].
Defined.

(** *** Submitting a generic annotation *)

Lemma trimStart_nil s :
  trimStart s = [] <-> forallb isWhiteSpaceOrLineTerminator s = true.
Proof.
  induction s as [|c r IH]; simpl; [tauto|].
  destruct (isWhiteSpaceOrLineTerminator c); simpl; [exact IH|].
  split; discriminate.
Qed.

Lemma trimStart_head s c r :
  trimStart s = c :: r -> isWhiteSpaceOrLineTerminator c = false.
Proof.
  induction s as [|x s IH]; simpl; [discriminate|].
  destruct (isWhiteSpaceOrLineTerminator x) eqn:E; [exact IH|].
  intros [= <- _]. exact E.
Qed.

(** The trimmed text is empty exactly for the empty and the
    whitespace-only texts. *)
Lemma trim_nil s : trim s = [] <-> forallb isWhiteSpaceOrLineTerminator s = true.
Proof.
  unfold trim, trimEnd. split.
  - intros H. apply (f_equal (@rev _)) in H. rewrite rev_involutive in H.
    simpl in H. apply trimStart_nil in H.
    destruct (trimStart s) as [|c r] eqn:E; [now apply trimStart_nil|].
    apply trimStart_head in E.
    rewrite forallb_forall in H. specialize (H c).
    rewrite H in E; [discriminate|]. apply in_rev. rewrite rev_involutive. now left.
  - intros H. apply trimStart_nil in H. now rewrite H.
Qed.

(** C2: for every annotation text whose trimmed value is empty (and when
    the textarea is missing), [submitGenericAnnotation] posts no message:
    the list of posted messages, the claim flag and the clock are as
    before; when the submit button is in the page the note 'Please
    provide an annotation.' is inserted, and otherwise nothing changes at
    all. *)
Theorem submitGenericAnnotation_rejects_blank JSON_parses assignmentId s :
  annotation_text assignmentId s = [] ->
  let s' := Webview.submitGenericAnnotation JSON_parses assignmentId s in
  Webview.posted s' = Webview.posted s /\
  Webview.isClaimingTask s' = Webview.isClaimingTask s /\
  Webview.now s' = Webview.now s /\
  (assignmentId ∈ Webview.submit_buttons (Webview.dom s) ->
   Webview.error_divs (Webview.dom s')
   = <[Webview.next_div (Webview.dom s) := (assignmentId, js "Please provide an annotation.")]>
       (Webview.error_divs (Webview.dom s))) /\
  (assignmentId ∉ Webview.submit_buttons (Webview.dom s) -> s' = s).
Proof.
  unfold annotation_text. intros H. cbv zeta.
  unfold Webview.submitGenericAnnotation. rewrite H. cbn [truthy negb].
  destruct (bool_decide_reflect (assignmentId ∈ Webview.submit_buttons (Webview.dom s)))
    as [Hb|Hb]; cbn; repeat split; auto; intros; tauto.
Qed.

(** A text that is not blank is submitted: exactly one message is posted. *)
Lemma submitGenericAnnotation_posts JSON_parses assignmentId s :
  annotation_text assignmentId s <> [] ->
  Webview.posted (Webview.submitGenericAnnotation JSON_parses assignmentId s)
  = Webview.posted s
      ++ [(Webview.now s,
           Webview.SubmitAssignment assignmentId
             (if JSON_parses (annotation_text assignmentId s)
              then Webview.ParsedJSON (annotation_text assignmentId s)
              else Webview.AnnotationObject (annotation_text assignmentId s)))].
Proof.
  unfold annotation_text, Webview.submitGenericAnnotation. intros H.
  destruct (match _ with Some value => trim value | None => [] end) as [|c r];
    [now destruct H|reflexivity].
Qed.

Lemma submitGenericAnnotation_rejects_blank_witness :
  annotation_text 2 blank_form = [] /\
  (let s' := Webview.submitGenericAnnotation (fun _ => false) 2 blank_form in
   Webview.posted s' = [] /\
   Webview.error_divs (Webview.dom s') !! 0%nat
   = Some (2, js "Please provide an annotation.")).
Proof.
  assert (H : annotation_text 2 blank_form = []) by (vm_compute; reflexivity).
  split; [exact H|].
  destruct (submitGenericAnnotation_rejects_blank (fun _ => false) 2 blank_form H)
    as (P & _ & _ & E & _).
  cbv zeta. split; [exact P|].
  rewrite E; [apply lookup_insert_eq|].
  change (2 ∈ ({[ 2 ]} : gset Z)). now apply elem_of_singleton_2.
Defined.

(** *** Regular expressions *)

Lemma lang_class_inv p s :
  Regex.lang (Regex.Class p) s <-> exists c, s = [c] /\ p c = true.
Proof.
  split.
  - inversion 1; subst. eauto.
  - intros (c & -> & H). now constructor.
Qed.

Lemma lang_cat_inv r t s :
  Regex.lang (Regex.Cat r t) s <->
  exists u v, s = u ++ v /\ Regex.lang r u /\ Regex.lang t v.
Proof.
  split.
  - inversion 1; subst. eauto.
  - intros (u & v & -> & Hu & Hv). now constructor.
Qed.

Lemma lang_alt_inv r t s :
  Regex.lang (Regex.Alt r t) s <-> Regex.lang r s \/ Regex.lang t s.
Proof.
  split.
  - inversion 1; subst; auto.
  - intros [H|H]; [now apply Regex.lang_alt_l|now apply Regex.lang_alt_r].
Qed.

Lemma nullable_lang r : Regex.nullable r = true <-> Regex.lang r [].
Proof.
  induction r as [| |p|r IHr s IHs|r IHr s IHs|r IHr]; simpl.
  - split; [discriminate|inversion 1].
  - split; [constructor|reflexivity].
  - split; [discriminate|inversion 1].
  - rewrite andb_true_iff, IHr, IHs, lang_cat_inv. split.
    + intros [H1 H2]. exists [], []. auto.
    + intros (u & v & E & Hu & Hv). symmetry in E.
      apply app_eq_nil in E as [-> ->]. auto.
  - now rewrite orb_true_iff, IHr, IHs, lang_alt_inv.
  - split; [constructor|reflexivity].
Qed.

Lemma lang_star_cons_inv r c s :
  Regex.lang (Regex.Star r) (c :: s) ->
  exists u v, s = u ++ v /\ Regex.lang r (c :: u) /\ Regex.lang (Regex.Star r) v.
Proof.
  intros H. remember (Regex.Star r) as sr eqn:Er. remember (c :: s) as cs eqn:Es.
  revert c s Es.
  induction H as [| | | | | |r' u v Hu _ Hv IHv]; intros c0 s0 Es;
    try discriminate.
  injection Er as ->.
  destruct u as [|c' u'].
  - simpl in Es. now apply IHv.
  - simpl in Es. injection Es as -> <-. exists u', v. auto.
Qed.

Lemma deriv_lang c r s : Regex.lang (Regex.deriv c r) s <-> Regex.lang r (c :: s).
Proof.
  revert s. induction r as [| |p|r IHr t IHt|r IHr t IHt|r IHr]; intros s; simpl.
  - split; inversion 1.
  - split; inversion 1.
  - rewrite lang_class_inv. destruct (p c) eqn:Hp; split.
    + inversion 1; subst. eauto.
    + intros (c' & [= <- ->] & _). constructor.
    + inversion 1.
    + intros (c' & [= <- ->] & H). congruence.
  - assert (Hcat : Regex.lang (Regex.Cat (Regex.deriv c r) t) s ->
                   Regex.lang (Regex.Cat r t) (c :: s)).
    { rewrite !lang_cat_inv. intros (u & v & -> & Hu & Hv).
      apply IHr in Hu. exists (c :: u), v. auto. }
    assert (Hinv : Regex.lang (Regex.Cat r t) (c :: s) ->
                   Regex.lang (Regex.Cat (Regex.deriv c r) t) s \/
                   (Regex.lang r [] /\ Regex.lang t (c :: s))).
    { rewrite !lang_cat_inv. intros (u & v & E & Hu & Hv).
      destruct u as [|c' u'].
      - simpl in E. subst v. auto.
      - simpl in E. injection E as <- ->. left.
        exists u', v. split; [reflexivity|]. split; [now apply IHr|assumption]. }
    destruct (Regex.nullable r) eqn:Hn.
    + rewrite lang_alt_inv. split.
      * intros [H|H]; [auto|].
        apply nullable_lang in Hn. apply lang_cat_inv.
        exists [], (c :: s). split; [reflexivity|]. split; [assumption|now apply IHt].
      * intros H. apply Hinv in H as [H|[_ H]]; [now left|].
        right. now apply IHt.
    + split; [exact Hcat|].
      intros H. apply Hinv in H as [H|[H _]]; [exact H|].
      apply nullable_lang in H. congruence.
  - now rewrite !lang_alt_inv, IHr, IHt.
  - split.
    + rewrite lang_cat_inv. intros (u & v & -> & Hu & Hv).
      apply IHr in Hu. exact (Regex.lang_star_cons _ (c :: u) v Hu Hv).
    + intros H. apply lang_star_cons_inv in H as (u & v & -> & Hu & Hv).
      apply lang_cat_inv. exists u, v. split; [reflexivity|].
      split; [now apply IHr|assumption].
Qed.

(** The test by derivatives decides the language of the pattern. *)
Lemma test_lang r s : Regex.test r s = true <-> Regex.lang r s.
Proof.
  revert r. induction s as [|c s IH]; intros r; simpl.
  - apply nullable_lang.
  - rewrite IH. apply deriv_lang.
Qed.

Lemma lang_star_class p s :
  Regex.lang (Regex.Star (Regex.Class p)) s <-> Forall (fun c => p c = true) s.
Proof.
  split.
  - induction s as [|c s IH]; intros H; [constructor|].
    apply lang_star_cons_inv in H as (u & v & -> & Hu & Hv).
    apply lang_class_inv in Hu as (c' & [= <- E] & Hp).
    subst u. simpl in *. constructor; auto.
  - induction 1 as [|c s Hc _ IH]; [constructor|].
    apply (Regex.lang_star_cons _ [c] s); [now constructor|assumption].
Qed.

Lemma lang_plus_class p s :
  Regex.lang (Regex.Plus (Regex.Class p)) s <->
  s <> [] /\ Forall (fun c => p c = true) s.
Proof.
  unfold Regex.Plus. rewrite lang_cat_inv. split.
  - intros (u & v & -> & Hu & Hv).
    apply lang_class_inv in Hu as (c & -> & Hp). apply lang_star_class in Hv.
    split; [discriminate|]. simpl. constructor; assumption.
  - intros [Hne H]. destruct s as [|c s]; [now destruct Hne|].
    inversion H; subst. exists [c], s. repeat split.
    + now constructor.
    + now apply lang_star_class.
Qed.

(** *** The validators of the two [utils/validation.ts] *)

Lemma username_test u :
  Regex.test username_regex u = true <->
  u <> [] /\ Forall (fun c => is_username_char c = true) u.
Proof. unfold username_regex. rewrite test_lang. apply lang_plus_class. Qed.

Lemma username_checks {A} (m1 m2 m3 m4 : A) u :
  (if negb (truthy u) then Some m1
   else if (length u <? 3)%nat then Some m2
   else if (30 <? length u)%nat then Some m3
   else if negb (Regex.test username_regex u) then Some m4
   else None) = None <-> username_shape u.
Proof.
  unfold username_shape. pose proof (username_test u) as Ht.
  destruct (truthy u) eqn:E1; cbn [negb].
  2: { destruct u; [|discriminate]. split; [discriminate|].
       intros [[H _] _]. simpl in H. lia. }
  destruct (Nat.ltb_spec (length u) 3) as [H3|H3].
  { split; [discriminate|intros [[? ?] ?]; lia]. }
  destruct (Nat.ltb_spec 30 (length u)) as [H30|H30].
  { split; [discriminate|intros [[? ?] ?]; lia]. }
  destruct (Regex.test username_regex u) eqn:E; cbn [negb].
  - split; [intros _|reflexivity]. split; [lia|]. now apply Ht.
  - split; [discriminate|]. intros [_ HF].
    assert (false = true); [|discriminate].
    apply Ht. split; [|assumption]. now destruct u.
Qed.

(** X1: both [validateUsername], the extension's and the frontend's, accept
    exactly the names of 3 to 30 characters made of letters, digits,
    underscores and hyphens; a name of exactly 30 characters passes. *)
Theorem validateUsername_accepts_username_shape (username : jsstring) :
  (ExtensionValidators.validateUsername username = None <->
   username_shape username) /\
  (FrontendValidators.validateUsername username = None <->
   username_shape username).
Proof. split; apply username_checks. Qed.

Lemma existsb_Exists {A} (f : A -> bool) l :
  existsb f l = true <-> Exists (fun c => f c = true) l.
Proof.
  induction l as [|x l IH]; simpl.
  - split; [discriminate|inversion 1].
  - rewrite orb_true_iff, IH. split.
    + intros [H|H]; [now left|now right].
    + inversion 1; subst; auto.
Qed.

Lemma existsb_jsstring_eqb (d : jsstring) l :
  existsb (jsstring_eqb d) l = true <-> In d l.
Proof.
  rewrite existsb_exists. unfold jsstring_eqb. split.
  - intros (x & Hin & E). apply bool_decide_eq_true in E. now subst.
  - intros H. exists d. split; [assumption|]. now apply bool_decide_eq_true.
Qed.

Lemma frontend_validatePassword_strong (password : jsstring) :
  FrontendValidators.validatePassword password = None <-> strong_password password.
Proof.
  unfold FrontendValidators.validatePassword, strong_password.
  rewrite <- !existsb_Exists, <- existsb_jsstring_eqb.
  destruct (truthy password) eqn:E1; cbn [negb].
  2: { destruct password; [|discriminate]. split; [discriminate|].
       intros [[H _] _]. simpl in H. lia. }
  destruct (Nat.ltb_spec (length password) 8) as [H8|H8].
  { split; [discriminate|intros [[? ?] ?]; lia]. }
  destruct (Nat.ltb_spec 128 (length password)) as [H128|H128].
  { split; [discriminate|intros [[? ?] ?]; lia]. }
  destruct (existsb is_upper password); cbn [negb];
    [|split; [discriminate|intros (_ & ? & _); discriminate]].
  destruct (existsb is_lower password); cbn [negb];
    [|split; [discriminate|intros (_ & _ & ? & _); discriminate]].
  destruct (existsb is_digit password); cbn [negb];
    [|split; [discriminate|intros (_ & _ & _ & ? & _); discriminate]].
  destruct (existsb is_special_char password); cbn [negb];
    [|split; [discriminate|intros (_ & _ & _ & _ & ? & _); discriminate]].
  destruct (existsb (jsstring_eqb password) FrontendValidators.weakPasswords).
  - split; [discriminate|]. intros (_ & _ & _ & _ & _ & H). now destruct H.
  - split; [|reflexivity]. intros _. repeat split; try lia; discriminate.
Qed.

(** X2: the frontend's [validatePassword] accepts exactly the passwords of
    8 to 128 characters with an upper-case letter, a lower-case letter, a
    digit and a special character that are not on the list of common
    passwords; the extension's accepts every password of 8 characters or
    more, so whatever the frontend accepts the extension accepts too. *)
Theorem validatePassword_accepts_strong_password (password : jsstring) :
  (FrontendValidators.validatePassword password = None <->
   strong_password password) /\
  (ExtensionValidators.validatePassword password = None <->
   (8 <= length password)%nat).
Proof.
  split; [apply frontend_validatePassword_strong|].
  unfold ExtensionValidators.validatePassword.
  destruct (truthy password) eqn:E1; cbn [negb].
  2: { destruct password; [|discriminate]. split; [discriminate|].
       simpl. lia. }
  destruct (Nat.ltb_spec (length password) 8) as [H8|H8].
  - split; [discriminate|lia].
  - split; [intros _; lia|reflexivity].
Qed.

Lemma email_test e : Regex.test email_regex e = true <-> email_shape e.
Proof.
  unfold email_regex, email_shape, email_parts. rewrite test_lang. split.
  - intros H.
    apply lang_cat_inv in H as (u1 & r1 & -> & H1 & H).
    apply lang_cat_inv in H as (u2 & r2 & -> & H2 & H).
    apply lang_cat_inv in H as (u3 & r3 & -> & H3 & H).
    apply lang_cat_inv in H as (u4 & u5 & -> & H4 & H5).
    apply lang_plus_class in H1 as [N1 F1]. apply lang_plus_class in H3 as [N3 F3].
    apply lang_plus_class in H5 as [N5 F5].
    apply lang_class_inv in H2 as (c2 & -> & E2). apply N.eqb_eq in E2. subst c2.
    apply lang_class_inv in H4 as (c4 & -> & E4). apply N.eqb_eq in E4. subst c4.
    exists u1, (u3 ++ 46%N :: u5). repeat split; try assumption.
    + apply Forall_app. split; [assumption|]. constructor; [reflexivity|assumption].
    + exists u3, u5. auto.
  - intros (l & d & -> & N1 & F1 & Fd & b & a & -> & Nb & Na).
    apply Forall_app in Fd as [Fb Fa]. inversion Fa; subst.
    apply lang_cat_inv. exists l, (64%N :: b ++ 46%N :: a).
    split; [reflexivity|]. split; [now apply lang_plus_class|].
    apply lang_cat_inv. exists [64%N], (b ++ 46%N :: a).
    split; [reflexivity|]. split; [now constructor|].
    apply lang_cat_inv. exists b, (46%N :: a).
    split; [reflexivity|]. split; [now apply lang_plus_class|].
    apply lang_cat_inv. exists [46%N], a.
    split; [reflexivity|]. split; [now constructor|now apply lang_plus_class].
Qed.

Lemma extension_validateEmail_shape (email : jsstring) :
  ExtensionValidators.validateEmail email = None <-> email_shape email.
Proof.
  unfold ExtensionValidators.validateEmail. rewrite <- email_test.
  destruct (truthy email) eqn:E1; cbn [negb].
  - destruct (Regex.test email_regex email); cbn [negb];
      [easy|split; discriminate].
  - destruct email; [|discriminate]. split; [discriminate|].
    vm_compute. discriminate.
Qed.

(** X3: the extension's [validateEmail] accepts exactly the addresses
    [local@domain] with one '@', no whitespace, a non-empty local part and a
    domain holding a '.' that is neither its first nor its last character. *)
Theorem validateEmail_accepts_email_shape (email : jsstring) :
  ExtensionValidators.validateEmail email = None <-> email_shape email.
Proof.
  unfold ExtensionValidators.validateEmail.
  destruct email as [|c email'] eqn:E; cbn [truthy negb].
  - split; [discriminate|]. intros H. apply email_test in H. discriminate H.
  - rewrite <- E, <- email_test.
    destruct (Regex.test email_regex email); cbn [negb]; [easy|].
    split; discriminate.
Qed.

Lemma split_aux_app sep l r cur :
  Forall (fun c => N.eqb c sep = false) l ->
  split_aux sep (l ++ r) cur = split_aux sep r (rev l ++ cur).
Proof.
  intros H. revert cur. induction H as [|c l Hc _ IH]; intros cur; [reflexivity|].
  simpl. rewrite Hc, IH. now rewrite <- app_assoc.
Qed.

Lemma split_two sep l d :
  Forall (fun c => N.eqb c sep = false) l ->
  Forall (fun c => N.eqb c sep = false) d ->
  split sep (l ++ sep :: d) = [l; d].
Proof.
  intros Hl Hd. unfold split. rewrite split_aux_app by assumption.
  simpl. rewrite N.eqb_refl, app_nil_r, rev_involutive. f_equal.
  rewrite <- (app_nil_r d) at 1. rewrite split_aux_app by assumption.
  simpl. now rewrite app_nil_r, rev_involutive.
Qed.

Lemma email_char_not_at l :
  Forall (fun c => is_email_char c = true) l ->
  Forall (fun c => N.eqb c 64 = false) l.
Proof.
  intros F. eapply Forall_impl; [exact F|]. intros c H.
  unfold is_email_char in H.
  apply negb_true_iff, orb_false_iff in H. tauto.
Qed.

Lemma email_parts_split e l d :
  email_parts e l d -> split 64%N e = [l; d].
Proof.
  intros (-> & _ & Fl & Fd & _). apply split_two; now apply email_char_not_at.
Qed.

Lemma frontend_validateEmail_parts
    (toLowerCase : jsstring -> jsstring) (email : jsstring) :
  FrontendValidators.validateEmail toLowerCase email = None <->
  exists local domain,
    email_parts email local domain /\
    ~ In (toLowerCase domain) FrontendValidators.commonTypos.
Proof.
  unfold FrontendValidators.validateEmail.
  destruct (truthy email) eqn:E1; cbn [negb].
  2: { destruct email; [|discriminate]. split; [discriminate|].
       intros (l & d & (E & _) & _). now destruct l. }
  destruct (Regex.test email_regex email) eqn:Et; cbn [negb].
  - apply email_test in Et as (l & d & Hp).
    rewrite (email_parts_split _ _ _ Hp). cbn [lookup list_lookup fmap option_fmap option_map from_option].
    assert (Hin : truthy (toLowerCase d) &&
                  existsb (jsstring_eqb (toLowerCase d)) FrontendValidators.commonTypos
                  = true <-> In (toLowerCase d) FrontendValidators.commonTypos).
    { rewrite andb_true_iff, existsb_jsstring_eqb. split; [tauto|].
      intros H. split; [|assumption].
      destruct (toLowerCase d); [|reflexivity].
      simpl in H. intuition discriminate. }
    destruct (truthy (toLowerCase d) &&
              existsb (jsstring_eqb (toLowerCase d)) FrontendValidators.commonTypos).
    + split; [discriminate|]. intros (l' & d' & Hp' & Hn).
      apply email_parts_split in Hp'. rewrite (email_parts_split _ _ _ Hp) in Hp'.
      injection Hp' as <- <-. destruct Hn. now apply Hin.
    + split; [|reflexivity]. intros _. exists l, d. split; [assumption|].
      intros H. apply Hin in H. discriminate.
  - split; [discriminate|]. intros (l & d & Hp & _).
    assert (Regex.test email_regex email = true)
      by (apply email_test; now exists l, d).
    congruence.
Qed.

(** X4: the frontend's [validateEmail] accepts exactly the addresses of
    that shape whose domain, in lower case, is none of the four misspelt
    domains; so an address the frontend accepts, the extension accepts. *)
Theorem validateEmail_rejects_typo_domains
    (toLowerCase : jsstring -> jsstring) (email : jsstring) :
  (FrontendValidators.validateEmail toLowerCase email = None <->
   exists local domain,
     email_parts email local domain /\
     ~ In (toLowerCase domain) FrontendValidators.commonTypos) /\
  (FrontendValidators.validateEmail toLowerCase email = None ->
   ExtensionValidators.validateEmail email = None).
Proof.
  split; [apply frontend_validateEmail_parts|].
  intros H. apply frontend_validateEmail_parts in H as (l & d & Hp & _).
  apply extension_validateEmail_shape. now exists l, d.
Qed.

(** *** [StorageManager] and [AuthManager], continued *)

(** X5: [StorageManager]: [get] returns what [set] stored under the key,
    nothing when [undefined] was stored; [has] holds after [set] exactly for
    a value that is neither [undefined] nor [null]; [remove] makes [has]
    false; and none of them touches another key. *)
Theorem storage_set_get_has (key : string) (value : option Auth.Value)
    (st : Auth.Storage) :
  Auth.storage_get key (Auth.storage_set key value st) = value /\
  (Auth.storage_has key (Auth.storage_set key value st) = true <->
   exists v, value = Some v /\ v <> Auth.VNull) /\
  Auth.storage_has key (Auth.storage_remove key st) = false /\
  (forall other, other <> key ->
     Auth.storage_get other (Auth.storage_set key value st)
     = Auth.storage_get other st /\
     Auth.storage_get other (Auth.storage_remove key st)
     = Auth.storage_get other st).
Proof.
  unfold Auth.storage_get, Auth.storage_has, Auth.storage_set,
    Auth.storage_remove, Auth.Storage in *.
  split; [|split; [|split]].
  - destruct value; [apply lookup_insert_eq|apply lookup_delete_eq].
  - destruct value as [v|]; cbv beta iota.
    + rewrite lookup_insert_eq. destruct v as [s|u|].
      * split; [intros _|reflexivity]. eexists. split; [reflexivity|discriminate].
      * split; [intros _|reflexivity]. eexists. split; [reflexivity|discriminate].
      * split; [discriminate|]. intros (v & [= <-] & H). now destruct H.
    + rewrite lookup_delete_eq. split; [discriminate|].
      intros (v & H & _). discriminate.
  - now rewrite lookup_delete_eq.
  - intros other Hne. destruct value; cbv beta iota.
    + now rewrite lookup_insert_ne, lookup_delete_ne by congruence.
    + now rewrite lookup_delete_ne by congruence.
Qed.

Lemma clear_loop_lookup (ks : list string) (st : Auth.Storage) (k : string) :
  foldl (fun acc key => Auth.storage_set key None acc) st ks !! k
  = if bool_decide (k ∈ ks) then None else st !! k.
Proof.
  unfold Auth.storage_set, Auth.Storage in *.
  revert st. induction ks as [|x ks IH]; intros st; simpl.
  - reflexivity.
  - rewrite IH. destruct (decide (k = x)) as [->|Hne].
    + rewrite lookup_delete_eq.
      rewrite (bool_decide_eq_true_2 (x ∈ x :: ks)) by (apply elem_of_cons; auto).
      now destruct (bool_decide (x ∈ ks)).
    + rewrite lookup_delete_ne by congruence.
      destruct (decide (k ∈ ks)) as [Hin|Hnin].
      * rewrite !bool_decide_eq_true_2;
          [reflexivity|apply elem_of_cons; auto|assumption].
      * rewrite !bool_decide_eq_false_2; [reflexivity| |assumption].
        intros H. apply elem_of_cons in H as [?|?]; contradiction.
Qed.

(** X6: [StorageManager.clear] leaves no key behind: afterwards [get]
    returns [undefined] and [has] is false for every key. *)
Theorem clear_removes_every_key (st : Auth.Storage) (key : string) :
  Auth.storage_get key (StorageManager.clear st) = None /\
  Auth.storage_has key (StorageManager.clear st) = false.
Proof.
  assert (H : StorageManager.clear st !! key = None).
  { unfold StorageManager.clear. rewrite clear_loop_lookup.
    destruct (decide (key ∈ StorageManager.keys st)) as [Hin|Hnin].
    - now rewrite bool_decide_eq_true_2.
    - rewrite bool_decide_eq_false_2 by assumption.
      destruct (st !! key) as [v|] eqn:E; [|reflexivity].
      destruct Hnin. unfold StorageManager.keys.
      apply list_elem_of_fmap. exists (key, v). split; [reflexivity|].
      now apply elem_of_map_to_list. }
  unfold Auth.storage_get, Auth.storage_has. now rewrite H.
Qed.

(** X7: [AuthManager.logout] ends the session whatever the storage held and
    however the logout request settled: afterwards [isAuthenticated] is
    false and [getUser] returns nothing, and no other key is touched. *)
Theorem logout_ends_session (st : Auth.Storage) :
  Auth.isAuthenticated (Auth.logout st) = false /\
  Auth.getUser (Auth.logout st) = None /\
  (forall key, key <> "authToken"%string -> key <> "user"%string ->
     Auth.storage_get key (Auth.logout st) = Auth.storage_get key st).
Proof.
  unfold Auth.isAuthenticated, Auth.getUser, Auth.logout, Auth.storage_has,
    Auth.storage_get, Auth.storage_remove, Auth.Storage in *.
  split; [|split].
  - rewrite lookup_delete_ne by discriminate. now rewrite lookup_delete_eq.
  - now rewrite lookup_delete_eq.
  - intros key H1 H2. now rewrite !lookup_delete_ne by congruence.
Qed.

(** X8: after an annotator's login [getUser] returns the user of the
    response, and [isAuthenticated] holds exactly when the response carried
    a token: a response without one stores the user and leaves the
    extension unauthenticated, even where a token was stored before. *)
Theorem login_then_session (data : Auth.LoginData) (u : Auth.User)
    (st : Auth.Storage) :
  Auth.user data = Some u -> Auth.user_type u = js "annotator" ->
  Auth.getUser (snd (Auth.login (Resolved data) st)) = Some (Auth.VUser u) /\
  Auth.isAuthenticated (snd (Auth.login (Resolved data) st))
  = bool_decide (is_Some (Auth.token data)).
Proof.
  intros Hu Ht. rewrite (login_annotator_stores _ _ _ Hu Ht).
  unfold Auth.getUser, Auth.isAuthenticated, Auth.storage_get, Auth.storage_has,
    Auth.storage_set, Auth.Storage in *. cbn [snd]. split.
  - apply lookup_insert_eq.
  - rewrite lookup_insert_ne by discriminate.
    destruct (Auth.token data) as [t|]; cbn [fmap option_fmap option_map].
    + now rewrite lookup_insert_eq.
    + now rewrite lookup_delete_eq.
Qed.

Lemma login_then_session_witness :
  Auth.getUser (snd (Auth.login (Resolved tokenless_login) stale_session))
  = Some (Auth.VUser annotator) /\
  Auth.isAuthenticated (snd (Auth.login (Resolved tokenless_login) stale_session))
  = false.
Proof.
  exact (login_then_session tokenless_login annotator stale_session
           eq_refl eq_refl).
Defined.

(** X9: [AuthManager.updateWalletAddress] sends its one request only when a
    user is stored, and otherwise throws 'User not authenticated' with the
    storage as it was; whenever it throws the storage is unchanged; when it
    returns, it has stored under [user] exactly what the server's reply held
    and returns it: [getUser] gives that value, be it a user, the empty
    string of an empty body or [null], and [has('user')] holds unless the
    reply held [null] or nothing; and in no case does it touch a key other
    than [user]. *)
Theorem updateWalletAddress_storage
    (patch : option Z -> jsstring -> Outcome (option Auth.Value) Wallet.RequestError)
    (walletAddress : jsstring) (st : Auth.Storage) :
  let out := Wallet.updateWalletAddress patch walletAddress st in
  out.2 = (if Wallet.no_user (Auth.getUser st) then []
           else [Wallet.PatchUser (Wallet.id_of (Auth.getUser st)) walletAddress]) /\
  (Wallet.no_user (Auth.getUser st) = true ->
   out = (inl (Wallet.Error (js "User not authenticated")), st, [])) /\
  (forall thrown, out.1.1 = inl thrown -> out.1.2 = st) /\
  (forall updatedUser, out.1.1 = inr updatedUser ->
     patch (Wallet.id_of (Auth.getUser st)) walletAddress = Resolved updatedUser /\
     Auth.getUser out.1.2 = updatedUser /\
     (Auth.storage_has "user" out.1.2 = true <->
      exists v, updatedUser = Some v /\ v <> Auth.VNull)) /\
  (forall key, key <> "user"%string ->
     Auth.storage_get key out.1.2 = Auth.storage_get key st).
Proof.
  unfold Wallet.updateWalletAddress.
  destruct (Wallet.no_user (Auth.getUser st)) eqn:Hn; cbn zeta.
  - cbn [fst snd Wallet.update_catch]. repeat split; discriminate.
  - destruct (patch _ walletAddress) as [updated|e]; cbn [fst snd].
    + split; [reflexivity|]. split; [discriminate|]. split; [discriminate|].
      split.
      * intros updatedUser [= <-]. split; [reflexivity|].
        unfold Auth.getUser, Auth.storage_get, Auth.storage_has, Auth.storage_set,
          Auth.Storage in *.
        destruct updated as [v|]; cbv beta iota.
        -- rewrite lookup_insert_eq. split; [reflexivity|].
           destruct v as [s0|u|].
           ++ split; [intros _|reflexivity]. eexists. split; [reflexivity|discriminate].
           ++ split; [intros _|reflexivity]. eexists. split; [reflexivity|discriminate].
           ++ split; [discriminate|]. intros (v & [= <-] & H). now destruct H.
        -- rewrite lookup_delete_eq. split; [reflexivity|].
           split; [discriminate|]. intros (v & H & _). discriminate H.
      * intros key Hne.
        unfold Auth.storage_get, Auth.storage_set, Auth.Storage in *.
        destruct updated; cbv beta iota;
          [now rewrite lookup_insert_ne by congruence
          |now rewrite lookup_delete_ne by congruence].
    + repeat split; discriminate.
Qed.

(** *** The handlers of [TaskPanelProvider], continued *)

(** X10: whatever the claim and the refreshes answer, [handleClaimTask]
    calls [claimTask] first, shows exactly one notification and refreshes
    the panel; the notification is the success message exactly when the
    claim produced an assignment with an id and the refresh after it
    succeeded; and the handler itself fails only by the refresh of its
    [catch] clause. *)
Theorem handleClaimTask_notifies_once (env : TaskPanel.Env) (taskId : Z) :
  let effs := fst (TaskPanel.handleClaimTask env taskId) in
  head effs = Some (TaskPanel.ClaimTaskCall taskId) /\
  length (notifications effs) = 1%nat /\
  In TaskPanel.RefreshCall effs /\
  (In (TaskPanel.ShowInformationMessage TaskPanel.claimed_message) effs <->
   exists assignment,
     TaskPanel.claimTask env taskId = Resolved assignment /\
     TaskPanel.not_created assignment = false /\
     TaskPanel.refresh_after_claim env = Resolved tt) /\
  (snd (TaskPanel.handleClaimTask env taskId) = Resolved tt \/
   snd (TaskPanel.handleClaimTask env taskId) = TaskPanel.refresh_after_error env).
Proof.
  unfold TaskPanel.handleClaimTask, TaskPanel.handle_claim_error.
  destruct (TaskPanel.claimTask env taskId) as [assignment|error] eqn:Hc.
  - destruct (TaskPanel.not_created assignment) eqn:Hn.
    + cbn. repeat split; auto.
      * intros [H|[H|[H|[]]]]; discriminate H.
      * intros (a & [= <-] & Hn' & _). congruence.
    + destruct (TaskPanel.refresh_after_claim env) as [[]|rerr] eqn:Hr.
      * cbn. repeat split; auto. intros _. eauto.
      * cbn. repeat split; auto.
        -- intros [H|[H|[H|[H|[]]]]]; discriminate H.
        -- intros (a & _ & _ & H). discriminate H.
  - cbn. repeat split; auto.
    + intros [H|[H|[H|[]]]]; discriminate H.
    + intros (a & H & _). discriminate H.
Qed.

(** X11: [handleStartAssignment] and [handleCancelAssignment] never fail,
    whatever the request and the refresh answer; they refresh the panel
    exactly when the request succeeded, and show the success message exactly
    then; an error message is shown exactly when the request or the refresh
    failed, so a failed refresh puts an error message after the success
    message of a request that did succeed. *)
Theorem start_and_cancel_never_fail
    (request refresh : Outcome unit Handlers.RequestError) (assignmentId : Z) :
  let resolved := match request with Resolved _ => true | Rejected _ => false end in
  let failed := match request, refresh with
                | Resolved _, Resolved _ => false
                | _, _ => true
                end in
  let start := Handlers.handleStartAssignment request refresh assignmentId in
  let cancel := Handlers.handleCancelAssignment request refresh assignmentId in
  snd start = Resolved tt /\ snd cancel = Resolved tt /\
  existsb Handlers.is_refresh (fst start) = resolved /\
  existsb Handlers.is_refresh (fst cancel) = resolved /\
  (In (Handlers.ShowInformationMessage (js "Started working on task!")) (fst start)
   <-> resolved = true) /\
  (In (Handlers.ShowInformationMessage
         (js "Assignment cancelled. Task is now available for others."))
      (fst cancel) <-> resolved = true) /\
  existsb Handlers.is_error_message (fst start) = failed /\
  existsb Handlers.is_error_message (fst cancel) = failed.
Proof.
  unfold Handlers.handleStartAssignment, Handlers.handleCancelAssignment.
  destruct request as [[]|e]; [destruct refresh as [[]|e']|]; cbn;
    repeat split; auto; try discriminate;
    intros [H|[H|[]]]; discriminate H.
Qed.

(** X12: [handleSubmitAssignment] always refreshes the panel, shows at most
    one error message, and shows the success message exactly when the submit
    request succeeded; when that request is rejected the only notification
    is the error message chosen by the status, which for status 400 is
    'Submission failed: ' followed by the first non-empty one of the
    server's first annotation message, its detail, and 'Invalid annotation
    format'; the handler fails only by the refresh of its [catch] clause. *)
Theorem handleSubmitAssignment_notifications
    (request refresh refresh_after_error : Outcome unit Handlers.RequestError)
    (assignmentId : Z) (result : jsstring) :
  let out := Handlers.handleSubmitAssignment request refresh refresh_after_error
               assignmentId result in
  head (fst out) = Some (Handlers.SubmitAssignmentCall assignmentId result) /\
  existsb Handlers.is_refresh (fst out) = true /\
  (length (List.filter Handlers.is_error_message (fst out)) <= 1)%nat /\
  (In (Handlers.ShowInformationMessage
         (js "Task submitted successfully! You will be paid once the researcher approves it."))
      (fst out) <-> exists u, request = Resolved u) /\
  (forall error, request = Rejected error ->
     List.filter Handlers.is_notification (fst out)
     = [Handlers.ShowErrorMessage (Handlers.submit_error_message error)] /\
     (Handlers.response_status error = Some 400 ->
      Handlers.submit_error_message error
      = js "Submission failed: "
        ++ or_else (Handlers.annotation_result_0 error)
             (or_else (Handlers.detail error)
                (js "Invalid annotation format")))) /\
  (snd out = Resolved tt \/ snd out = refresh_after_error).
Proof.
  unfold Handlers.handleSubmitAssignment.
  destruct request as [[]|e]; [destruct refresh as [[]|e']|]; cbn -[js Handlers.submit_error_message].
  - repeat split; auto; try discriminate; eauto.
  - repeat split; auto; try discriminate; eauto.
  - repeat split; auto; try discriminate.
    + intros [H|[H|[H|[]]]]; discriminate H.
    + intros [u H]. discriminate H.
    + injection H as <-. reflexivity.
    + injection H as <-. unfold Handlers.submit_error_message.
      intros ->. reflexivity.
Qed.

(** *** [escapeHtml] *)

Lemma flat_map_flat_map {A B C} (f : A -> list B) (g : B -> list C) l :
  flat_map g (flat_map f l) = flat_map (fun x => flat_map g (f x)) l.
Proof.
  induction l as [|x l IH]; [reflexivity|].
  simpl. now rewrite flat_map_app, IH.
Qed.

Lemma escape_char (c : code_unit) :
  Escape.escapeHtml [c] = Card.escapeHtml [c].
Proof.
  unfold Escape.escapeHtml, Escape.replace_all, Card.escapeHtml.
  cbn [flat_map]. rewrite !app_nil_r.
  destruct (N.eqb_spec c 38) as [->|H38]; [reflexivity|].
  cbn [flat_map]. rewrite !app_nil_r.
  destruct (N.eqb_spec c 60) as [->|H60]; [reflexivity|].
  cbn [flat_map]. rewrite !app_nil_r.
  destruct (N.eqb_spec c 62) as [->|H62]; [reflexivity|].
  cbn [flat_map]. rewrite !app_nil_r.
  destruct (N.eqb_spec c 34) as [->|H34]; [reflexivity|].
  cbn [flat_map]. rewrite !app_nil_r.
  destruct (N.eqb_spec c 39) as [->|H39]; reflexivity.
Qed.

Lemma escape_app (a b : jsstring) :
  Escape.escapeHtml (a ++ b) = Escape.escapeHtml a ++ Escape.escapeHtml b.
Proof.
  unfold Escape.escapeHtml, Escape.replace_all. now rewrite !flat_map_app.
Qed.

(** X13: the five replacements of [escapeHtml], applied one after the
    other, amount to one pass that replaces each of the five characters by
    its entity (no '&' of an entity is escaped a second time); and the
    result holds no '<', '>', double quote or single quote, whatever the
    input. *)
Theorem escapeHtml_one_pass (unsafe : jsstring) :
  Escape.escapeHtml unsafe = Card.escapeHtml unsafe /\
  Forall (fun c => ~ In c [60; 62; 34; 39]%N) (Escape.escapeHtml unsafe).
Proof.
  assert (E : Escape.escapeHtml unsafe = Card.escapeHtml unsafe).
  { induction unsafe as [|c s IH]; [reflexivity|].
    change (c :: s) with ([c] ++ s). rewrite escape_app, IH, escape_char.
    unfold Card.escapeHtml. now rewrite flat_map_app. }
  split; [exact E|]. rewrite E. clear E. unfold Card.escapeHtml.
  induction unsafe as [|c s IH]; [constructor|].
  cbn [flat_map]. apply Forall_app. split; [|exact IH].
  destruct (N.eqb_spec c 38); [repeat constructor; cbn; intuition discriminate|].
  destruct (N.eqb_spec c 60); [repeat constructor; cbn; intuition discriminate|].
  destruct (N.eqb_spec c 62); [repeat constructor; cbn; intuition discriminate|].
  destruct (N.eqb_spec c 34); [repeat constructor; cbn; intuition discriminate|].
  destruct (N.eqb_spec c 39); [repeat constructor; cbn; intuition discriminate|].
  repeat constructor. cbn. intuition congruence.
Qed.

(** *** The selection of the review panel *)

Lemma set_delete_In_iff x y s : In y (App.set_delete x s) <-> In y s /\ y <> x.
Proof.
  unfold App.set_delete. rewrite <- !list_elem_of_In, list_elem_of_filter.
  rewrite Is_true_true, negb_true_iff, Z.eqb_neq. intuition congruence.
Qed.

Lemma set_add_In_iff x y s : In y (App.set_add x s) <-> y = x \/ In y s.
Proof.
  unfold App.set_add. destruct (App.set_has x s) eqn:E.
  - apply set_has_true in E. intuition congruence.
  - rewrite in_app_iff. simpl. intuition.
Qed.

Lemma set_of_list_In_iff l y : In y (App.set_of_list l) <-> In y l.
Proof.
  split; [apply set_of_list_In|].
  unfold App.set_of_list.
  assert (G : forall acc, In y acc \/ In y l ->
                          In y (fold_left (fun s x => App.set_add x s) l acc)).
  { induction l as [|x l IH]; simpl; intros acc H; [tauto|].
    apply IH. rewrite set_add_In_iff. intuition. }
  intros H. apply G. now right.
Qed.

Lemma set_has_eq x s t :
  (In x s <-> In x t) -> App.set_has x s = App.set_has x t.
Proof.
  intros H. apply eq_true_iff_eq. now rewrite !set_has_true.
Qed.

(** X14: [toggleAssignmentSelection] flips the membership of the given id
    and of no other: afterwards the id is selected exactly if it was not
    before, every other id is selected exactly if it was, and the list of
    pending assignments is as it was. *)
Theorem toggleAssignmentSelection_flips (assignmentId x : Z) (st : App.State) :
  App.set_has x
    (App.selectedAssignments (App.toggleAssignmentSelection assignmentId st))
  = (if Z.eqb x assignmentId
     then negb (App.set_has assignmentId (App.selectedAssignments st))
     else App.set_has x (App.selectedAssignments st)) /\
  App.pendingAssignments (App.toggleAssignmentSelection assignmentId st)
  = App.pendingAssignments st.
Proof.
  split; [|reflexivity]. unfold App.toggleAssignmentSelection.
  cbn [App.selectedAssignments App.setSelectedAssignments].
  destruct (App.set_has assignmentId (App.selectedAssignments st)) eqn:E;
    destruct (Z.eqb_spec x assignmentId) as [->|Hne]; cbn [negb].
  - apply not_true_is_false. rewrite set_has_true, set_delete_In_iff. tauto.
  - apply set_has_eq. rewrite set_delete_In_iff. tauto.
  - apply set_has_true, set_add_In_iff. now left.
  - apply set_has_eq. rewrite set_add_In_iff. tauto.
Qed.

Lemma NoDup_set_of_list l : NoDup (App.set_of_list l).
Proof.
  unfold App.set_of_list.
  assert (G : forall acc, NoDup acc ->
                          NoDup (fold_left (fun s x => App.set_add x s) l acc)).
  { induction l as [|x l IH]; simpl; intros acc H; [assumption|].
    apply IH. unfold App.set_add. destruct (App.set_has x acc) eqn:E; [assumption|].
    apply NoDup_app. split; [assumption|]. split.
    - intros y Hy [<-|[]]%list_elem_of_In. apply list_elem_of_In in Hy.
      apply set_has_true in Hy. congruence.
    - apply NoDup_singleton. }
  apply G. constructor.
Qed.

Lemma loadPendingAssignments_selection env st :
  App.selectedAssignments (fst (App.loadPendingAssignments env st)) = [] \/
  App.selectedAssignments (fst (App.loadPendingAssignments env st))
  = App.selectedAssignments st.
Proof.
  unfold App.loadPendingAssignments.
  destruct (App.list_assignments env _); cbn; auto.
Qed.

Lemma ui_step_NoDup st st' :
  ui_step st st' -> NoDup (App.selectedAssignments st) ->
  NoDup (App.selectedAssignments st').
Proof.
  intros Hstep Inv.
  assert (L : forall env s, App.selectedAssignments s = App.selectedAssignments st ->
                            NoDup (App.selectedAssignments
                                     (fst (App.loadPendingAssignments env s)))).
  { intros env s Hs. destruct (loadPendingAssignments_selection env s) as [->| ->];
      [constructor|now rewrite Hs]. }
  destruct Hstep.
  - unfold App.toggleAssignmentSelection.
    cbn [App.selectedAssignments App.setSelectedAssignments].
    destruct (App.set_has _ _) eqn:E.
    + unfold App.set_delete. now apply NoDup_filter.
    + unfold App.set_add. rewrite E. apply NoDup_app. split; [assumption|]. split.
      * intros y Hy [<-|[]]%list_elem_of_In. apply list_elem_of_In in Hy.
        apply set_has_true in Hy. congruence.
      * apply NoDup_singleton.
  - unfold App.toggleSelectAll. destruct (Nat.eqb _ _); cbn;
      [constructor|apply NoDup_set_of_list].
  - now apply L.
  - exact Inv.
  - unfold App.handleBatchApprove.
    destruct (Nat.eqb _ _); [exact Inv|].
    destruct (negb _); [exact Inv|].
    destruct (App.approve_loop _ _ _ _ _) as [[sc ec] reqs].
    pose proof (L env (App.setLoading false (App.setLoading true st)) eq_refl) as H.
    destruct (App.loadPendingAssignments _ _) as [st3 reload]. exact H.
  - unfold App.handleApproveAssignment.
    destruct (from_option truthy false _); [exact Inv|].
    destruct (App.approve env i amount); [|exact Inv].
    pose proof (L env (App.setLoading true st) eq_refl) as H.
    destruct (App.loadPendingAssignments _ _) as [st2 reload]. exact H.
  - unfold App.handleRejectAssignment, App.assignmentsAPI_reject. cbn [fst snd].
    destruct (App.reject env i _); [|exact Inv].
    pose proof (L env (App.setLoading true st) eq_refl) as H.
    destruct (App.loadPendingAssignments _ _) as [st2 reload]. exact H.
  - exact Inv.
Qed.

(** The selection never holds an id twice. *)
Lemma reachable_NoDup st : ui_reachable st -> NoDup (App.selectedAssignments st).
Proof.
  unfold ui_reachable. revert st. apply rtc_ind_r.
  - constructor.
  - intros st st' _ Hstep IH. now apply (ui_step_NoDup st).
Qed.

Lemma find_assignment_Some_In st i a :
  App.find_assignment st i = Some a ->
  In i (map App.assignment_id (App.pendingAssignments st)).
Proof.
  unfold App.find_assignment. intros H. apply find_some in H as [Hin E].
  apply Z.eqb_eq in E. subst i. now apply in_map.
Qed.

(** X15: in a state the review panel can reach, with assignments listed
    under distinct ids, "Select All" clears the selection exactly when every
    listed assignment was selected, and otherwise selects exactly the listed
    assignments. *)
Theorem toggleSelectAll_all_or_none (st : App.State) :
  ui_reachable st ->
  App.pendingAssignments st <> [] ->
  NoDup (map App.assignment_id (App.pendingAssignments st)) ->
  let all_selected :=
    forallb (fun a => App.set_has (App.assignment_id a) (App.selectedAssignments st))
            (App.pendingAssignments st) in
  (all_selected = true ->
   App.selectedAssignments (App.toggleSelectAll st) = []) /\
  (all_selected = false ->
   forall i, In i (App.selectedAssignments (App.toggleSelectAll st)) <->
             In i (map App.assignment_id (App.pendingAssignments st))).
Proof.
  intros Hreach Hne Hids all_selected.
  pose proof (reachable_NoDup st Hreach) as Hsel.
  pose proof (reachable_selection_invariant st Hreach Hne) as Hsub.
  assert (Hincl : incl (App.selectedAssignments st)
                       (map App.assignment_id (App.pendingAssignments st))).
  { intros i Hi. unfold selection_pending in Hsub. rewrite Forall_forall in Hsub.
    apply list_elem_of_In in Hi. destruct (Hsub i Hi) as [a Ha].
    now apply (find_assignment_Some_In st i a). }
  assert (Hall : all_selected = true <->
                 incl (map App.assignment_id (App.pendingAssignments st))
                      (App.selectedAssignments st)).
  { unfold all_selected. rewrite forallb_forall. split.
    - intros H i Hi. apply in_map_iff in Hi as (a & <- & Ha).
      apply set_has_true. now apply H.
    - intros H a Ha. apply set_has_true. apply H. now apply in_map. }
  assert (Hlen : Nat.eqb (length (App.selectedAssignments st))
                         (length (App.pendingAssignments st)) = all_selected).
  { apply eq_true_iff_eq. rewrite Nat.eqb_eq, Hall.
    rewrite <- (length_map App.assignment_id (App.pendingAssignments st)). split.
    - intros E. apply NoDup_length_incl;
        [now apply NoDup_ListNoDup|lia|assumption].
    - intros H. apply Nat.le_antisymm;
        (apply NoDup_incl_length; [now apply NoDup_ListNoDup|assumption]). }
  unfold App.toggleSelectAll. rewrite Hlen. split.
  - intros ->. reflexivity.
  - intros ->. intros i. cbn. apply set_of_list_In_iff.
Qed.

Lemma toggleSelectAll_all_or_none_witness :
  App.selectedAssignments (App.toggleSelectAll one_review) = [].
Proof.
  assert (R : ui_reachable one_review)
    by (apply review_state_reachable; discriminate).
  assert (N : NoDup (map App.assignment_id (App.pendingAssignments one_review))).
  { cbn. apply NoDup_cons. split; [intros H; inversion H|constructor]. }
  assert (P : App.pendingAssignments one_review <> []) by discriminate.
  exact (proj1 (toggleSelectAll_all_or_none one_review R P N) eq_refl).
Defined.

(** X16: [handleRejectAssignment] sends exactly one reject request, for
    the id it was given; the reason in the request is the one it was given
    or, when that is the empty string, 'Does not meet quality standards';
    it never sends an approve request; it reloads the list exactly when the
    request succeeded; it always ends with the loading flag down, and with
    the banner empty after a success and not empty after a failure. *)
Theorem handleRejectAssignment_effects
    (env : App.Env) (assignmentId : Z) (reason : jsstring) (st : App.State) :
  let out := App.handleRejectAssignment env assignmentId reason st in
  let sent_reason :=
    match reason with
    | [] => js "Does not meet quality standards"
    | _ :: _ => reason
    end in
  let resolved := match App.reject env assignmentId sent_reason with
                  | Resolved _ => true
                  | Rejected _ => false
                  end in
  snd out = App.RejectRequest assignmentId sent_reason
            :: (if resolved then [App.ListRequest (js "submitted")] else []) /\
  sent_reason <> [] /\
  App.approve_requests (snd out) = [] /\
  App.loading (fst out) = false /\
  (truthy (App.error (fst out)) = negb resolved).
Proof.
  cbv zeta. unfold App.handleRejectAssignment, App.assignmentsAPI_reject.
  cbn [fst snd].
  assert (E : (if truthy reason then reason else js "Does not meet quality standards")
              = match reason with
                | [] => js "Does not meet quality standards"
                | _ :: _ => reason
                end) by now destruct reason.
  rewrite E.
  assert (N : match reason with
              | [] => js "Does not meet quality standards"
              | _ :: _ => reason
              end <> []) by now destruct reason.
  destruct (App.reject env assignmentId _) as [[]|err].
  - pose proof (loadPendingAssignments_effects env (App.setLoading true st)) as H.
    destruct (App.loadPendingAssignments _ _) as [st2 reload]. cbn in H. subst reload.
    repeat split; try assumption; reflexivity.
  - repeat split; try assumption.
    cbn [fst App.error App.setLoading App.setError negb].
    unfold or_else. destruct (App.response_data_error err) as [m|]; [|reflexivity].
    now destruct (truthy m) eqn:E'.
Qed.

(** X17: when nothing is selected, or the user does not confirm,
    [handleBatchApprove] sends no request at all and leaves the state as it
    was. *)
Theorem handleBatchApprove_cancelled (env : App.Env) (st : App.State) :
  App.selectedAssignments st = [] \/
  App.window_confirm env (App.confirm_message st) = false ->
  fst (App.handleBatchApprove env st) = st /\
  App.approve_requests (snd (App.handleBatchApprove env st)) = [] /\
  Forall (fun e => exists m, e = App.Alert m \/ e = App.Confirm m)
         (snd (App.handleBatchApprove env st)).
Proof.
  intros H. unfold App.handleBatchApprove.
  destruct (App.selectedAssignments st) as [|i l] eqn:E.
  - cbn -[js]. repeat split. repeat constructor. eexists. left. reflexivity.
  - destruct H as [H|H]; [discriminate|].
    cbn [length Nat.eqb]. rewrite H. cbn [negb fst snd App.approve_requests omap].
    repeat split. repeat constructor. eexists. right. reflexivity.
Qed.

Lemma handleBatchApprove_cancelled_witness :
  fst (App.handleBatchApprove (listing_env [] approve_ok) App.initial) = App.initial /\
  App.approve_requests
    (snd (App.handleBatchApprove (listing_env [] approve_ok) App.initial)) = [] /\
  Forall (fun e => exists m, e = App.Alert m \/ e = App.Confirm m)
         (snd (App.handleBatchApprove (listing_env [] approve_ok) App.initial)).
Proof.
  exact (handleBatchApprove_cancelled (listing_env [] approve_ok) App.initial
           (or_introl eq_refl)).
Defined.

(** *** The session handlers of the frontend *)

Lemma validateUsername_message u m :
  FrontendValidators.validateUsername u = Some m -> truthy m = true.
Proof.
  unfold FrontendValidators.validateUsername.
  repeat match goal with
         | |- context [if ?b then _ else _] => destruct b
         end; intros [= <-]; reflexivity.
Qed.

Lemma validateEmail_message toLowerCase e m :
  FrontendValidators.validateEmail toLowerCase e = Some m -> truthy m = true.
Proof.
  unfold FrontendValidators.validateEmail.
  repeat match goal with
         | |- context [if ?b then _ else _] => destruct b
         end; intros [= <-]; reflexivity.
Qed.

Lemma validatePassword_message p m :
  FrontendValidators.validatePassword p = Some m -> truthy m = true.
Proof.
  unfold FrontendValidators.validatePassword.
  repeat match goal with
         | |- context [if ?b then _ else _] => destruct b
         end; intros [= <-]; reflexivity.
Qed.

(** X18: the frontend's [handleRegister] sends the register request exactly
    when the user name, the e-mail address and the password pass their
    validators and the confirmation equals the password; otherwise it sends
    nothing, shows a message in the banner and leaves the session (the
    authentication flag, the user and the stored token) as it was; in every
    case it ends with the loading flag down. *)
Theorem handleRegister_validates_first
    (toLowerCase : jsstring -> jsstring)
    (register : jsstring -> jsstring -> jsstring -> jsstring ->
                Outcome Session.AuthData Session.AxiosError)
    (registerData : Session.RegisterData) (st : Session.State) :
  let out := Session.handleRegister toLowerCase register registerData st in
  let request :=
    Session.RegisterRequest (Session.username registerData)
      (Session.email registerData) (Session.password registerData)
      (Session.register_user_type registerData) in
  (snd out = [request] <->
   username_shape (Session.username registerData) /\
   (exists local domain,
      email_parts (Session.email registerData) local domain /\
      ~ In (toLowerCase domain) FrontendValidators.commonTypos) /\
   strong_password (Session.password registerData) /\
   Session.password registerData = Session.confirmPassword registerData) /\
  (snd out = [request] \/
   snd out = [] /\ truthy (Session.error (fst out)) = true /\
   Session.isAuthenticated (fst out) = Session.isAuthenticated st /\
   Session.user (fst out) = Session.user st /\
   Session.authToken (fst out) = Session.authToken st) /\
  Session.loading (fst out) = false.
Proof.
  cbv zeta. unfold Session.handleRegister.
  pose proof (username_checks
                (js "Username is required")
                (js "Username must be at least 3 characters long")
                (js "Username must be less than 30 characters")
                (js "Username can only contain letters, numbers, underscores, and hyphens")
                (Session.username registerData)) as Hu.
  change (FrontendValidators.validateUsername (Session.username registerData) = None
          <-> username_shape (Session.username registerData)) in Hu.
  pose proof (frontend_validateEmail_parts toLowerCase (Session.email registerData))
    as He.
  pose proof (frontend_validatePassword_strong (Session.password registerData)) as Hp.
  destruct (FrontendValidators.validateUsername _) as [mu|] eqn:Eu.
  { pose proof (validateUsername_message _ _ Eu) as T. cbn [from_option]. rewrite T.
    cbn -[js]. split; [|auto 10]. split; [discriminate|]. intros (H & _).
    apply Hu in H. discriminate H. }
  destruct (FrontendValidators.validateEmail _ _) as [me|] eqn:Ee.
  { pose proof (validateEmail_message _ _ _ Ee) as T. cbn [from_option]. rewrite T.
    cbn -[js]. split; [|auto 10]. split; [discriminate|]. intros (_ & H & _).
    apply He in H. discriminate H. }
  destruct (FrontendValidators.validatePassword _) as [mp|] eqn:Ep.
  { pose proof (validatePassword_message _ _ Ep) as T. cbn [from_option]. rewrite T.
    cbn -[js]. split; [|auto 10]. split; [discriminate|]. intros (_ & _ & H & _).
    apply Hp in H. discriminate H. }
  cbn [from_option]. unfold jsstring_eqb.
  destruct (bool_decide_reflect
              (Session.password registerData = Session.confirmPassword registerData))
    as [Ec|Ec]; cbn [negb].
  - destruct (register _ _ _ _) as [data|err]; cbn [fst snd Session.loading Session.setLoading].
    + split; [|auto]. split; [intros _|reflexivity].
      split; [now apply Hu|]. split; [now apply He|]. split; [now apply Hp|assumption].
    + split; [|auto]. split; [intros _|reflexivity].
      split; [now apply Hu|]. split; [now apply He|]. split; [now apply Hp|assumption].
  - cbn -[js]. split; [|auto 10]. split; [discriminate|]. intros (_ & _ & _ & H).
    contradiction.
Qed.


(** *** [GitHubOAuth] *)

(** X20: the OAuth state is good for one validation: after [login],
    [validateState] accepts exactly the state that was put in the
    authorization URL (the caller's, or the generated one when the caller
    gives none or the empty string), and after any [validateState] every
    further [validateState] fails, with the matching state too. *)
Theorem validateState_single_use
    (generateState : jsstring) (state : option jsstring)
    (ss : GitHubOAuth.SessionStorage) (candidate again : jsstring) :
  let started := GitHubOAuth.login generateState state ss in
  (fst (GitHubOAuth.validateState candidate (fst started)) = true <->
   candidate = snd started) /\
  snd started = or_else state generateState /\
  fst (GitHubOAuth.validateState again
         (snd (GitHubOAuth.validateState candidate (fst started)))) = false /\
  fst (GitHubOAuth.validateState again
         (snd (GitHubOAuth.validateState candidate ss))) = false.
Proof.
  cbv zeta. unfold GitHubOAuth.validateState, GitHubOAuth.login,
    GitHubOAuth.SessionStorage in *. cbn [fst snd].
  rewrite lookup_insert_eq, !lookup_delete_eq. unfold jsstring_eqb.
  rewrite bool_decide_eq_true. tauto.
Qed.

(** *** The claim guard is released *)

Lemma reset_times_singleton s x :
  Webview.reset_times s = [x] -> In (x, Webview.ResetClaiming) (Webview.timers s).
Proof.
  unfold Webview.reset_times. intros H.
  assert (Hin : x ∈ map fst (filter (fun p => Webview.is_reset (snd p) = true)
                               (Webview.timers s))).
  { rewrite H. apply list_elem_of_In. now left. }
  apply list_elem_of_In, in_map_iff in Hin as ([t a] & Hx & Hp).
  apply list_elem_of_In, list_elem_of_filter in Hp as [Hr Hp].
  cbn in Hx, Hr. subst t. destruct a; [|discriminate Hr].
  now apply list_elem_of_In.
Qed.

(** X21: the guard cannot stay set: in every state the webview can reach
    with [isClaimingTask] set, the timeout that clears it is pending, due
    3000 ms after the last claim message; once that time has come and the
    timeout has run, the flag is clear and the next [claimTask] posts its
    message. *)
Theorem claim_guard_releases (JSON_parses : jsstring -> bool) (s : Webview.State) :
  Webview.reachable JSON_parses s ->
  Webview.isClaimingTask s = true ->
  exists t0,
    last (Webview.claim_times s) = Some t0 /\
    In (t0 + 3000, Webview.ResetClaiming) (Webview.timers s) /\
    forall t taskId,
      t0 + 3000 <= t -> Webview.now s <= t ->
      Webview.reachable JSON_parses
        (Webview.run_timer (t0 + 3000, Webview.ResetClaiming) (Webview.wait_until t s)) /\
      Webview.isClaimingTask
        (Webview.run_timer (t0 + 3000, Webview.ResetClaiming) (Webview.wait_until t s))
      = false /\
      Webview.posted
        (Webview.claimTask taskId
           (Webview.run_timer (t0 + 3000, Webview.ResetClaiming)
              (Webview.wait_until t s)))
      = Webview.posted s ++ [(t, Webview.ClaimTask taskId)].
Proof.
  intros R Hf. destruct (reachable_guard_invariant JSON_parses s R) as [_ Hl].
  destruct (last (Webview.claim_times s)) as [t0|].
  2: { destruct Hl as [Hl _]. congruence. }
  destruct Hl as [_ Hl]. rewrite Hf in Hl. apply reset_times_singleton in Hl.
  exists t0. split; [reflexivity|]. split; [exact Hl|].
  intros t taskId Hdue Hnow. split; [|split; reflexivity].
  destruct R as [d R]. exists d.
  eapply rtc_r; [eapply rtc_r; [exact R|]|].
  - apply (Webview.step_wait _ t). exact Hnow.
  - apply Webview.step_timer; [exact Hl|exact Hdue].
Qed.

Lemma claim_guard_releases_witness :
  exists t0,
    last (Webview.claim_times run_6) = Some t0 /\
    In (t0 + 3000, Webview.ResetClaiming) (Webview.timers run_6) /\
    forall t taskId,
      t0 + 3000 <= t -> Webview.now run_6 <= t ->
      Webview.reachable (fun _ => false)
        (Webview.run_timer (t0 + 3000, Webview.ResetClaiming)
           (Webview.wait_until t run_6)) /\
      Webview.isClaimingTask
        (Webview.run_timer (t0 + 3000, Webview.ResetClaiming)
           (Webview.wait_until t run_6))
      = false /\
      Webview.posted
        (Webview.claimTask taskId
           (Webview.run_timer (t0 + 3000, Webview.ResetClaiming)
              (Webview.wait_until t run_6)))
      = Webview.posted run_6 ++ [(t, Webview.ClaimTask taskId)].
Proof.
  exact (claim_guard_releases (fun _ => false) run_6 run_6_reachable eq_refl).
Defined.

(** *** The rating and classification forms *)

Lemma optional_trimmed (textarea : option jsstring) :
  Forms.optional (Forms.trimmed textarea) <> Some [] /\
  (Forms.optional (Forms.trimmed textarea) = None <-> blank textarea).
Proof.
  unfold Forms.optional, Forms.trimmed, blank. destruct textarea as [value|].
  - rewrite <- trim_nil. destruct (trim value) as [|c r]; cbn [truthy].
    + split; [discriminate|tauto].
    + split; [discriminate|]. split; discriminate.
  - cbn. split; [discriminate|tauto].
Qed.

(** X22: [submitMTEvaluation] posts exactly when a rating is selected and
    [submitClassification] exactly when at least one choice is; what they
    post is one submit message for the assignment with the selected rating,
    respectively with the one selected choice as a plain value or the
    several as a list; and the comment or caption sent along is never an
    empty or blank text: the field is left out exactly when the text area is
    missing or holds only whitespace. *)
Theorem forms_post_complete_results (doc : Forms.Document) (assignmentId : Z) :
  let mt := Forms.submitMTEvaluation doc assignmentId in
  let cl := Forms.submitClassification doc assignmentId in
  let captionTextarea :=
    match Forms.caption_value doc assignmentId with
    | Some value => Some value
    | None => Forms.textarea_value doc assignmentId
    end in
  ((exists m, mt = [Forms.PostMessage m]) <->
   is_Some (Forms.rating_checked doc assignmentId)) /\
  ((exists m, cl = [Forms.PostMessage m]) <->
   Forms.choices_checked doc assignmentId <> []) /\
  (forall m, In (Forms.PostMessage m) mt ->
     exists r, m = Forms.SubmitMT assignmentId r /\
       Forms.rating_checked doc assignmentId = Some (Forms.rating r) /\
       Forms.comment r <> Some [] /\
       (Forms.comment r = None <-> blank (Forms.comment_value doc assignmentId))) /\
  (forall m, In (Forms.PostMessage m) cl ->
     exists r, m = Forms.SubmitClassification assignmentId r /\
       match Forms.choices r with
       | Forms.OneChoice c => Forms.choices_checked doc assignmentId = [c]
       | Forms.ManyChoices l =>
           l = Forms.choices_checked doc assignmentId /\ (2 <= length l)%nat
       end /\
       Forms.caption r <> Some [] /\
       (Forms.caption r = None <-> blank captionTextarea)).
Proof.
  cbv zeta. unfold Forms.submitMTEvaluation, Forms.submitClassification.
  split; [|split; [|split]].
  - destruct (Forms.rating_checked doc assignmentId) as [r|].
    + split; eauto.
    + split; [|intros [x H]; discriminate H].
      intros [m H]. destruct (Forms.mt_button doc assignmentId); discriminate H.
  - destruct (Forms.choices_checked doc assignmentId) as [|c l]; cbn [length Nat.eqb].
    + split; [|intros H; now destruct H].
      intros [m H]. destruct (Forms.classification_button doc assignmentId);
        discriminate H.
    + split; [discriminate|eauto].
  - intros m. destruct (Forms.rating_checked doc assignmentId) as [r|].
    + intros [[= <-]|[]]. eexists. split; [reflexivity|]. split; [reflexivity|].
      apply optional_trimmed.
    + destruct (Forms.mt_button doc assignmentId); [intros [H|[]]; discriminate H|intros []].
  - intros m.
    destruct (Forms.choices_checked doc assignmentId) as [|c l]; cbn [length Nat.eqb].
    + destruct (Forms.classification_button doc assignmentId);
        [intros [H|[]]; discriminate H|intros []].
    + intros [[= <-]|[]]. eexists. split; [reflexivity|].
      cbn [Forms.choices Forms.caption]. split; [|apply optional_trimmed].
      destruct l as [|c' l']; [reflexivity|]. split; [reflexivity|cbn; lia].
Qed.
